(** * CustomerSupportBot: the browser client and the retrieval contract

    The repository ships one program, [frontend/js/main.js]: the chat
    widget and the upload modal that talk to three HTTP interfaces (chat,
    upload, health).  This development embeds that script as a state
    machine over the page (the DOM fields the script touches, the log of
    [fetch] calls, and the continuations waiting for a reply) and proves
    properties of it.

    The Vector Store behind the HTTP interfaces is not part of the
    sources; it is modelled from its written contract in [VectorStore]. *)

From Stdlib Require Import String Ascii ZArith QArith List Lia Bool.
From stdpp Require Import base gmap strings list sorting.
From Equations.Prop Require Import Equations Logic.
Import ListNotations.
Open Scope string_scope.

(** ** JavaScript strings

    A JavaScript string is a sequence of UTF-16 code units.  The model uses
    [string], one [ascii] per code unit, so it covers the code units
    U+0000..U+00FF; every character the script itself tests for or writes
    lies in that range. *)
Module JsString.

(** The double quote, written by its code. *)
Definition dquote : string := String "034"%char EmptyString.

Definition code (c : ascii) : nat := nat_of_ascii c.

(** [WhiteSpace] and [LineTerminator] of ECMAScript, within U+0000..U+00FF:
    TAB, LF, VT, FF, CR, SP and NBSP. *)
Definition is_whitespace (c : ascii) : bool :=
  let n := code c in
  (n =? 9)%nat || (n =? 10)%nat || (n =? 11)%nat || (n =? 12)%nat
  || (n =? 13)%nat || (n =? 32)%nat || (n =? 160)%nat.

Definition is_empty (s : string) : bool :=
  match s with EmptyString => true | String _ _ => false end.

Fixpoint trimStart (s : string) : string :=
  match s with
  | EmptyString => EmptyString
  | String c s' => if is_whitespace c then trimStart s' else s
  end.

Fixpoint trimEnd (s : string) : string :=
  match s with
  | EmptyString => EmptyString
  | String c s' =>
      let t := trimEnd s' in
      if is_whitespace c && is_empty t then EmptyString else String c t
  end.

(** [String.prototype.trim] *)
Definition trim (s : string) : string := trimEnd (trimStart s).

(** [s.lastIndexOf(c)] for a one-character pattern: the index of the last
    occurrence, or -1. *)
Fixpoint lastIndexOf (c : ascii) (s : string) : Z :=
  match s with
  | EmptyString => (-1)%Z
  | String d s' =>
      let r := lastIndexOf c s' in
      if (0 <=? r)%Z then (r + 1)%Z
      else if Ascii.eqb d c then 0%Z else (-1)%Z
  end.

Fixpoint drop (n : nat) (s : string) : string :=
  match n, s with
  | O, _ => s
  | S _, EmptyString => EmptyString
  | S k, String _ s' => drop k s'
  end.

Fixpoint take (n : nat) (s : string) : string :=
  match n, s with
  | O, _ => EmptyString
  | S _, EmptyString => EmptyString
  | S k, String c s' => String c (take k s')
  end.

(** [s.substring(start)]: a negative start counts as 0, a start past the
    end as the length. *)
Definition substring_from (start : Z) (s : string) : string :=
  drop (Z.to_nat (Z.max 0 start)) s.

(** [s.substring(a, b)]: both ends are clamped to [0, length] and swapped
    when out of order. *)
Definition substring (a b : Z) (s : string) : string :=
  let a' := Z.to_nat (Z.max 0 a) in
  let b' := Z.to_nat (Z.max 0 b) in
  let lo := Nat.min a' b' in
  let hi := Nat.max a' b' in
  take (hi - lo) (drop lo s).

(** [toLowerCase] on one code unit of U+0000..U+00FF: A-Z, and the Latin-1
    capitals U+00C0..U+00DE except the multiplication sign U+00D7. *)
Definition lower_char (c : ascii) : ascii :=
  let n := code c in
  if ((65 <=? n)%nat && (n <=? 90)%nat)
     || ((192 <=? n)%nat && (n <=? 222)%nat && negb (n =? 215)%nat)
  then ascii_of_nat (n + 32) else c.

Fixpoint toLowerCase (s : string) : string :=
  match s with
  | EmptyString => EmptyString
  | String c s' => String (lower_char c) (toLowerCase s')
  end.

(** [arr.includes(s)] on an array of strings. *)
Definition includes (arr : list string) (s : string) : bool :=
  existsb (String.eqb s) arr.

(** [s.split(c)] for a one-character separator; the result is never empty
    ([''.split(c)] is [['']]). *)
Fixpoint split (c : ascii) (s : string) : list string :=
  match s with
  | EmptyString => [EmptyString]
  | String d s' =>
      match split c s' with
      | piece :: rest =>
          if Ascii.eqb d c then EmptyString :: piece :: rest
          else String d piece :: rest
      | [] => []
      end
  end.

(** [s.startsWith(p)], returning what follows the prefix. *)
Fixpoint strip_prefix (p s : string) : option string :=
  match p, s with
  | EmptyString, _ => Some s
  | String _ _, EmptyString => None
  | String a p', String b s' =>
      if Ascii.eqb a b then strip_prefix p' s' else None
  end.

(** The class [\d] of a regular expression without the unicode flag. *)
Definition is_digit (c : ascii) : bool :=
  let n := code c in (48 <=? n)%nat && (n <=? 57)%nat.

(** The longest run of digits at the head of [s], and the rest. *)
Fixpoint span_digits (s : string) : string * string :=
  match s with
  | EmptyString => (EmptyString, EmptyString)
  | String c s' =>
      if is_digit c then
        let '(ds, rest) := span_digits s' in (String c ds, rest)
      else (EmptyString, s)
  end.

(** The digits [toString(36)] writes. *)
Definition is_base36 (c : ascii) : bool :=
  let n := code c in
  ((48 <=? n)%nat && (n <=? 57)%nat) || ((97 <=? n)%nat && (n <=? 122)%nat).

(** No occurrence of the character [c]. *)
Definition free_of (c : ascii) (s : string) : bool :=
  forallb (fun d => negb (Ascii.eqb d c)) (list_ascii_of_string s).

(** Occurrence test, for stating what a text contains. *)
Fixpoint is_prefix (p s : string) : bool :=
  match p, s with
  | EmptyString, _ => true
  | String _ _, EmptyString => false
  | String a p', String b s' => Ascii.eqb a b && is_prefix p' s'
  end.

Fixpoint contains (p s : string) : bool :=
  is_prefix p s ||
  match s with
  | EmptyString => false
  | String _ s' => contains p s'
  end.

End JsString.

(** ** The citation markers of a bot message

    [content.replace(/\[Document (\d+)\]/g, '<span class="source">Source $1</span>')] *)
Module Citation.
Import JsString.

(** One match of [/\[Document (\d+)\]/] anchored at the head of [s]: the
    captured digits and the text after the closing bracket.  [\d+] is
    greedy, and giving digits back cannot help since the next character
    must be the bracket. *)
Definition match_marker (s : string) : option (string * string) :=
  match strip_prefix "[Document " s with
  | Some after =>
      match span_digits after with
      | (String d ds, String c rest) =>
          if Ascii.eqb c "]" then Some (String d ds, rest) else None
      | _ => None
      end
  | None => None
  end.

(** The replacement template with [$1] filled in. *)
Definition source_span (digits : string) : string :=
  "<span class=" ++ dquote ++ "source" ++ dquote ++ ">Source "
  ++ digits ++ "</span>".

Lemma strip_prefix_length (p s r : string) :
  strip_prefix p s = Some r ->
  String.length s = (String.length p + String.length r)%nat.
Proof.
  revert s; induction p as [|a p IH]; intros s H; simpl in *.
  - congruence.
  - destruct s as [|b s]; [discriminate|].
    destruct (Ascii.eqb a b); [|discriminate].
    simpl. f_equal. now apply IH.
Qed.

Lemma span_digits_length (s ds r : string) :
  span_digits s = (ds, r) ->
  String.length s = (String.length ds + String.length r)%nat.
Proof.
  revert ds r; induction s as [|c s IH]; intros ds r H; simpl in *.
  - inversion H; reflexivity.
  - destruct (is_digit c).
    + destruct (span_digits s) as [ds' r'] eqn:E. inversion H; subst.
      simpl. f_equal. now apply IH.
    + inversion H; reflexivity.
Qed.

Lemma match_marker_shorter (s ds r : string) :
  match_marker s = Some (ds, r) ->
  (String.length r < String.length s)%nat.
Proof.
  unfold match_marker. intros H.
  destruct (strip_prefix "[Document " s) as [after|] eqn:Hp; [|discriminate].
  destruct (span_digits after) as [d q] eqn:Hd.
  destruct d as [|d0 d]; [discriminate|].
  destruct q as [|c q]; [discriminate|].
  destruct (Ascii.eqb c "]"); [|discriminate].
  inversion H; subst.
  apply strip_prefix_length in Hp. apply span_digits_length in Hd.
  simpl in *. lia.
Qed.

(** The global replace: scan from the left; where the pattern matches,
    emit the span and go on after the match, otherwise keep the character
    and go on one further. *)
Equations? replace_markers (s : string) : string by wf (String.length s) lt :=
  replace_markers EmptyString := EmptyString;
  replace_markers (String c s') with inspect (match_marker (String c s')) := {
    | exist _ (Some (digits, rest)) _ => source_span digits ++ replace_markers rest;
    | exist _ None _ => String c (replace_markers s') }.
Proof.
  apply match_marker_shorter in e. simpl in e. lia.
Qed.

(** Whether the pattern matches anywhere in the text. *)
Fixpoint has_marker (s : string) : bool :=
  match match_marker s with
  | Some _ => true
  | None =>
      match s with
      | EmptyString => false
      | String _ s' => has_marker s'
      end
  end.

End Citation.

(** ** The page script, [frontend/js/main.js] *)
Module Client.
Import JsString Citation.

(** *** Values

    What [response.json()] can hand to a handler, and [undefined] for a
    property that is not there.  Only the kinds the three interfaces
    exchange are modelled: null, booleans, strings and objects of these;
    numbers and arrays, which no handler of the script reads, are left
    out. *)
#[warnings="-register-all"]
Inductive value : Type :=
  | VUndefined
  | VNull
  | VBool (b : bool)
  | VStr (s : string)
  | VObj (fields : list (string * value)).

(** [obj[k]] on a parsed object; of a repeated key the last one counts. *)
Fixpoint lookup_field (k : string) (fields : list (string * value)) : value :=
  match fields with
  | [] => VUndefined
  | (k', v) :: rest =>
      match lookup_field k rest with
      | VUndefined => if String.eqb k k' then v else VUndefined
      | found => found
      end
  end.

(** [data.k]: a [TypeError] ([None]) on [undefined] and [null],
    [undefined] on the other primitives. *)
Definition get (k : string) (data : value) : option value :=
  match data with
  | VUndefined | VNull => None
  | VBool _ | VStr _ => Some VUndefined
  | VObj fields => Some (lookup_field k fields)
  end.

(** [ToBoolean] *)
Definition truthy (v : value) : bool :=
  match v with
  | VUndefined | VNull => false
  | VBool b => b
  | VStr s => negb (is_empty s)
  | VObj _ => true
  end.

(** [ToString], as a template literal applies it. *)
Definition to_string (v : value) : string :=
  match v with
  | VUndefined => "undefined"
  | VNull => "null"
  | VBool true => "true"
  | VBool false => "false"
  | VStr s => s
  | VObj _ => "[object Object]"
  end.

(** [a || b] *)
Definition or_else (a b : value) : value := if truthy a then a else b.

(** [a !== 'text'] *)
Definition strict_ne_string (a : value) (text : string) : bool :=
  match a with
  | VStr s => negb (String.eqb s text)
  | _ => true
  end.

(** The object [JSON.stringify] writes: properties whose value is
    [undefined] are left out. *)
Definition json_object (fields : list (string * value)) : value :=
  VObj (List.filter
          (fun kv => match snd kv with VUndefined => false | _ => true end)
          fields).

(** *** The page *)

Record file := { name : string }.

(** A child of [#chat-messages]: a message bubble with the [innerHTML] of
    its paragraphs, or a typing indicator (told apart by the order of
    creation, as [removeChild] works on the node itself). *)
Inductive node : Type :=
  | Message (className : string) (paragraphs : list string)
  | Typing (id : nat).

Inductive request : Type :=
  | GET (url : string)
  | POST (url : string) (content_type : string) (body : value).

(** What is waiting for something outside the page: the handlers chained
    on a [fetch], the [FileReader] callbacks, a timer. *)
Inductive continuation : Type :=
  | ChatReply (typingIndicator : nat)
  | UploadReply (f : file)
  | HealthReply
  | FileRead (f : file)
  | CloseModalTimer.

(** The elements the script holds, with the properties it reads or
    writes, and the script's own state.  Scroll positions are layout and
    are not modelled. *)
Record page := {
  chatInput_value : string;
  chatInput_height : string;
  chatMessages : list node;
  uploadModal_display : string;
  fileUpload_files : option file;
  uploadStatus_textContent : string;
  uploadStatus_className : string;
  uploadProgress_width : string;
  confirmUploadBtn_disabled : bool;
  sessionId : string;
  fetched : list request;
  waiting : list (nat * continuation);
  fresh : nat;
  console : list string
}.

Definition set_chatInput (v h : string) (p : page) : page :=
  {| chatInput_value := v; chatInput_height := h;
     chatMessages := chatMessages p;
     uploadModal_display := uploadModal_display p;
     fileUpload_files := fileUpload_files p;
     uploadStatus_textContent := uploadStatus_textContent p;
     uploadStatus_className := uploadStatus_className p;
     uploadProgress_width := uploadProgress_width p;
     confirmUploadBtn_disabled := confirmUploadBtn_disabled p;
     sessionId := sessionId p; fetched := fetched p; waiting := waiting p;
     fresh := fresh p; console := console p |}.

Definition set_chatMessages (l : list node) (p : page) : page :=
  {| chatInput_value := chatInput_value p;
     chatInput_height := chatInput_height p;
     chatMessages := l;
     uploadModal_display := uploadModal_display p;
     fileUpload_files := fileUpload_files p;
     uploadStatus_textContent := uploadStatus_textContent p;
     uploadStatus_className := uploadStatus_className p;
     uploadProgress_width := uploadProgress_width p;
     confirmUploadBtn_disabled := confirmUploadBtn_disabled p;
     sessionId := sessionId p; fetched := fetched p; waiting := waiting p;
     fresh := fresh p; console := console p |}.

Definition set_uploadModal_display (d : string) (p : page) : page :=
  {| chatInput_value := chatInput_value p;
     chatInput_height := chatInput_height p;
     chatMessages := chatMessages p;
     uploadModal_display := d;
     fileUpload_files := fileUpload_files p;
     uploadStatus_textContent := uploadStatus_textContent p;
     uploadStatus_className := uploadStatus_className p;
     uploadProgress_width := uploadProgress_width p;
     confirmUploadBtn_disabled := confirmUploadBtn_disabled p;
     sessionId := sessionId p; fetched := fetched p; waiting := waiting p;
     fresh := fresh p; console := console p |}.

Definition set_fileUpload_files (f : option file) (p : page) : page :=
  {| chatInput_value := chatInput_value p;
     chatInput_height := chatInput_height p;
     chatMessages := chatMessages p;
     uploadModal_display := uploadModal_display p;
     fileUpload_files := f;
     uploadStatus_textContent := uploadStatus_textContent p;
     uploadStatus_className := uploadStatus_className p;
     uploadProgress_width := uploadProgress_width p;
     confirmUploadBtn_disabled := confirmUploadBtn_disabled p;
     sessionId := sessionId p; fetched := fetched p; waiting := waiting p;
     fresh := fresh p; console := console p |}.

Definition set_uploadStatus_textContent (t : string) (p : page) : page :=
  {| chatInput_value := chatInput_value p;
     chatInput_height := chatInput_height p;
     chatMessages := chatMessages p;
     uploadModal_display := uploadModal_display p;
     fileUpload_files := fileUpload_files p;
     uploadStatus_textContent := t;
     uploadStatus_className := uploadStatus_className p;
     uploadProgress_width := uploadProgress_width p;
     confirmUploadBtn_disabled := confirmUploadBtn_disabled p;
     sessionId := sessionId p; fetched := fetched p; waiting := waiting p;
     fresh := fresh p; console := console p |}.

Definition set_uploadStatus_className (c : string) (p : page) : page :=
  {| chatInput_value := chatInput_value p;
     chatInput_height := chatInput_height p;
     chatMessages := chatMessages p;
     uploadModal_display := uploadModal_display p;
     fileUpload_files := fileUpload_files p;
     uploadStatus_textContent := uploadStatus_textContent p;
     uploadStatus_className := c;
     uploadProgress_width := uploadProgress_width p;
     confirmUploadBtn_disabled := confirmUploadBtn_disabled p;
     sessionId := sessionId p; fetched := fetched p; waiting := waiting p;
     fresh := fresh p; console := console p |}.

Definition set_uploadProgress_width (w : string) (p : page) : page :=
  {| chatInput_value := chatInput_value p;
     chatInput_height := chatInput_height p;
     chatMessages := chatMessages p;
     uploadModal_display := uploadModal_display p;
     fileUpload_files := fileUpload_files p;
     uploadStatus_textContent := uploadStatus_textContent p;
     uploadStatus_className := uploadStatus_className p;
     uploadProgress_width := w;
     confirmUploadBtn_disabled := confirmUploadBtn_disabled p;
     sessionId := sessionId p; fetched := fetched p; waiting := waiting p;
     fresh := fresh p; console := console p |}.

Definition set_confirmUploadBtn_disabled (b : bool) (p : page) : page :=
  {| chatInput_value := chatInput_value p;
     chatInput_height := chatInput_height p;
     chatMessages := chatMessages p;
     uploadModal_display := uploadModal_display p;
     fileUpload_files := fileUpload_files p;
     uploadStatus_textContent := uploadStatus_textContent p;
     uploadStatus_className := uploadStatus_className p;
     uploadProgress_width := uploadProgress_width p;
     confirmUploadBtn_disabled := b;
     sessionId := sessionId p; fetched := fetched p; waiting := waiting p;
     fresh := fresh p; console := console p |}.

Definition set_console (l : list string) (p : page) : page :=
  {| chatInput_value := chatInput_value p;
     chatInput_height := chatInput_height p;
     chatMessages := chatMessages p;
     uploadModal_display := uploadModal_display p;
     fileUpload_files := fileUpload_files p;
     uploadStatus_textContent := uploadStatus_textContent p;
     uploadStatus_className := uploadStatus_className p;
     uploadProgress_width := uploadProgress_width p;
     confirmUploadBtn_disabled := confirmUploadBtn_disabled p;
     sessionId := sessionId p; fetched := fetched p; waiting := waiting p;
     fresh := fresh p; console := l |}.

(** Register a continuation under a fresh number. *)
Definition await (k : continuation) (p : page) : page :=
  {| chatInput_value := chatInput_value p;
     chatInput_height := chatInput_height p;
     chatMessages := chatMessages p;
     uploadModal_display := uploadModal_display p;
     fileUpload_files := fileUpload_files p;
     uploadStatus_textContent := uploadStatus_textContent p;
     uploadStatus_className := uploadStatus_className p;
     uploadProgress_width := uploadProgress_width p;
     confirmUploadBtn_disabled := confirmUploadBtn_disabled p;
     sessionId := sessionId p; fetched := fetched p;
     waiting := waiting p ++ [(fresh p, k)];
     fresh := S (fresh p); console := console p |}.

(** [fetch(...)] with the handlers [k] chained on it. *)
Definition fetch (r : request) (k : continuation) (p : page) : page :=
  await k
  {| chatInput_value := chatInput_value p;
     chatInput_height := chatInput_height p;
     chatMessages := chatMessages p;
     uploadModal_display := uploadModal_display p;
     fileUpload_files := fileUpload_files p;
     uploadStatus_textContent := uploadStatus_textContent p;
     uploadStatus_className := uploadStatus_className p;
     uploadProgress_width := uploadProgress_width p;
     confirmUploadBtn_disabled := confirmUploadBtn_disabled p;
     sessionId := sessionId p; fetched := fetched p ++ [r];
     waiting := waiting p;
     fresh := fresh p; console := console p |}.

(** *** Completions

    A handler either runs to its end or throws; what it did to the
    document before throwing stays done. *)
Inductive completion : Type :=
  | Normal (p : page)
  | Throw (p : page).

Definition bind (c : completion) (k : page -> completion) : completion :=
  match c with
  | Normal p => k p
  | Throw p => Throw p
  end.

Notation "c >>= k" := (bind c k) (at level 50, left associativity).

(** A property read that throws on [undefined] and [null]. *)
Definition reading (k : string) (data : value) (p : page)
    (use : value -> completion) : completion :=
  match get k data with
  | Some v => use v
  | None => Throw p
  end.

(** The state an event handler or a promise chain leaves behind; an
    exception nobody catches is reported by the browser and changes
    nothing more. *)
Definition settled (c : completion) : page :=
  match c with
  | Normal p => p
  | Throw p => p
  end.

(** [promise.then(f).catch(g)] once [f] has run. *)
Definition catching (c : completion) (handler : page -> completion) : page :=
  match c with
  | Normal p => p
  | Throw p => settled (handler p)
  end.

(** *** Constants *)

Definition API_URL : string :=
  "https://bzswdbk000.execute-api.us-east-1.amazonaws.com/prod".
Definition CHAT_ENDPOINT : string := API_URL ++ "/api/chat".
Definition UPLOAD_ENDPOINT : string := API_URL ++ "/api/upload".
Definition HEALTH_ENDPOINT : string := API_URL ++ "/api/health".

Definition newline : ascii := "010"%char.

Definition apology : string :=
  "I'm sorry, there was an error processing your request. Please try again later.".

Definition health_warning : string :=
  "Warning: Some services may not be functioning properly. Your experience might be affected.".

Definition invalid_type_message : string :=
  "Invalid file type. Please select a PDF, TXT, or DOCX file.".

Definition learned (file_name : string) : string :=
  "I've learned new information from " ++ dquote ++ file_name ++ dquote
  ++ ". You can now ask me questions about it!".

Definition validTypes : list string := [".pdf"; ".txt"; ".docx"].

(** *** The chat *)

(** [formattedContent.split('\n').filter(p => p.trim() !== '')] *)
Definition paragraphs_of (formattedContent : string) : list string :=
  List.filter (fun p => negb (is_empty (trim p)))
              (split newline formattedContent).

(** [addMessageToChat(sender, content)].  On a [content] that is not a
    string the first method call ([replace] for the bot, [split]
    otherwise) throws before the document is touched. *)
Definition addMessageToChat (sender : string) (content : value) (p : page)
    : completion :=
  match content with
  | VStr text =>
      let formattedContent :=
        if String.eqb sender "bot" then replace_markers text else text in
      Normal (set_chatMessages
                (chatMessages p
                 ++ [Message ("message " ++ sender)
                             (paragraphs_of formattedContent)])
                p)
  | _ => Throw p
  end.

(** [addTypingIndicator()]: the new node is returned by its number. *)
Definition addTypingIndicator (p : page) : nat * page :=
  let id := fresh p in
  (id,
   {| chatInput_value := chatInput_value p;
      chatInput_height := chatInput_height p;
      chatMessages := chatMessages p ++ [Typing id];
      uploadModal_display := uploadModal_display p;
      fileUpload_files := fileUpload_files p;
      uploadStatus_textContent := uploadStatus_textContent p;
      uploadStatus_className := uploadStatus_className p;
      uploadProgress_width := uploadProgress_width p;
      confirmUploadBtn_disabled := confirmUploadBtn_disabled p;
      sessionId := sessionId p; fetched := fetched p; waiting := waiting p;
      fresh := S id; console := console p |}).

Definition is_typing (id : nat) (n : node) : bool :=
  match n with
  | Typing i => Nat.eqb i id
  | Message _ _ => false
  end.

(** The children left when a typing indicator is taken out. *)
Definition without_typing (id : nat) (l : list node) : list node :=
  List.filter (fun n => negb (is_typing id n)) l.

(** [chatMessages.removeChild(typingIndicator)]: throws [NotFoundError]
    when the node is not a child (any more). *)
Definition removeChild (id : nat) (p : page) : completion :=
  if existsb (is_typing id) (chatMessages p)
  then Normal (set_chatMessages (without_typing id (chatMessages p)) p)
  else Throw p.

Definition console_write (line : string) (p : page) : page :=
  set_console (console p ++ [line]) p.

(** The [.then(data => ...)] of [sendMessage]. *)
Definition chat_then (typingIndicator : nat) (data : value) (p : page)
    : completion :=
  removeChild typingIndicator p >>= fun p1 =>
  reading "success" data p1 (fun success =>
  if truthy success then
    reading "response" data p1 (fun response =>
    addMessageToChat "bot" response p1)
  else
    reading "error" data p1 (fun error =>
    addMessageToChat "bot"
      (VStr ("Error: "
             ++ to_string (or_else error (VStr "Unknown error occurred"))))
      p1)).

(** The [.catch(error => ...)] of [sendMessage]. *)
Definition chat_catch (typingIndicator : nat) (p : page) : completion :=
  removeChild typingIndicator p >>= fun p1 =>
  addMessageToChat "bot" (VStr apology) p1 >>= fun p2 =>
  Normal (console_write "Error sending message:" p2).

(** [sendMessage()] *)
Definition sendMessage (p : page) : page :=
  let message := trim (chatInput_value p) in
  if is_empty message then p
  else
    settled
      (addMessageToChat "user" (VStr message) p >>= fun p1 =>
       let p2 := set_chatInput "" "auto" p1 in
       let '(typingIndicator, p3) := addTypingIndicator p2 in
       Normal (fetch (POST CHAT_ENDPOINT "application/json"
                        (json_object [("message", VStr message);
                                      ("session_id", VStr (sessionId p3))]))
                     (ChatReply typingIndicator) p3)).

(** [handleInputKeypress(e)] *)
Definition handleInputKeypress (key : string) (shiftKey : bool) (p : page)
    : page :=
  if String.eqb key "Enter" && negb shiftKey then sendMessage p else p.

(** [autoResizeTextarea()]; [scrollHeight] comes from the layout. *)
Definition autoResizeTextarea (scrollHeight : string) (p : page) : page :=
  set_chatInput (chatInput_value p) (scrollHeight ++ "px") p.

(** *** The upload modal *)

Definition closeUploadModal (p : page) : page :=
  set_uploadModal_display "none" p.

Definition resetUploadState (p : page) : page :=
  set_confirmUploadBtn_disabled true
    (set_uploadProgress_width "0"
       (set_uploadStatus_textContent ""
          (set_fileUpload_files None p))).

Definition openUploadModal (p : page) : page :=
  resetUploadState (set_uploadModal_display "flex" p).

(** [file.name.substring(file.name.lastIndexOf('.')).toLowerCase()] *)
Definition fileExtension (file_name : string) : string :=
  toLowerCase (substring_from (lastIndexOf "." file_name) file_name).

(** [handleFileSelect(e)], reading [e.target.files[0]] from the input. *)
Definition handleFileSelect (p : page) : page :=
  match fileUpload_files p with
  | None => p
  | Some f =>
      if negb (includes validTypes (fileExtension (name f))) then
        set_uploadStatus_className "text-error"
          (set_uploadStatus_textContent invalid_type_message p)
      else
        set_confirmUploadBtn_disabled false
          (set_uploadStatus_className ""
             (set_uploadStatus_textContent ("Selected file: " ++ name f) p))
  end.

(** [uploadDocument()] up to [reader.readAsDataURL(file)]. *)
Definition uploadDocument (p : page) : page :=
  match fileUpload_files p with
  | None =>
      set_uploadStatus_className "text-error"
        (set_uploadStatus_textContent "Please select a file first." p)
  | Some f =>
      await (FileRead f)
        (set_uploadProgress_width "0"
           (set_confirmUploadBtn_disabled true
              (set_uploadStatus_textContent "Uploading..." p)))
  end.

(** [e.target.result.split(',')[1]] *)
Definition base64_of (result : string) : value :=
  match split "," result with
  | _ :: piece :: _ => VStr piece
  | _ => VUndefined
  end.

(** [reader.onload] *)
Definition reader_onload (f : file) (result : string) (p : page) : page :=
  let base64Data := base64_of result in
  fetch (POST UPLOAD_ENDPOINT "application/json"
           (json_object [("file", base64Data); ("filename", VStr (name f))]))
        (UploadReply f) p.

(** [reader.onerror] *)
Definition reader_onerror (p : page) : page :=
  set_confirmUploadBtn_disabled false
    (set_uploadStatus_className "text-error"
       (set_uploadStatus_textContent "Error reading file. Please try again." p)).

(** The [.then(data => ...)] of the upload. *)
Definition upload_then (f : file) (data : value) (p : page) : completion :=
  reading "success" data p (fun success =>
  if truthy success then
    reading "message" data p (fun message =>
    let p1 :=
      set_uploadProgress_width "100%"
        (set_uploadStatus_className "text-success"
           (set_uploadStatus_textContent
              (to_string
                 (or_else message (VStr "Document uploaded successfully!")))
              p)) in
    addMessageToChat "bot" (VStr (learned (name f))) p1 >>= fun p2 =>
    Normal (await CloseModalTimer p2))
  else
    reading "error" data p (fun error =>
    Normal
      (set_confirmUploadBtn_disabled false
         (set_uploadStatus_className "text-error"
            (set_uploadStatus_textContent
               ("Error: " ++ to_string (or_else error (VStr "Unknown error")))
               p))))).

(** The [.catch(error => ...)] of the upload. *)
Definition upload_catch (p : page) : completion :=
  Normal
    (console_write "Error uploading document:"
       (set_confirmUploadBtn_disabled false
          (set_uploadStatus_className "text-error"
             (set_uploadStatus_textContent "Upload failed. Please try again." p)))).

(** *** Health *)

Definition checkHealth (p : page) : page :=
  fetch (GET HEALTH_ENDPOINT) HealthReply p.

Definition health_then (data : value) (p : page) : completion :=
  let p1 := console_write "Health status:" p in
  reading "status" data p1 (fun status =>
  if strict_ne_string status "healthy"
  then addMessageToChat "bot" (VStr health_warning) p1
  else Normal p1).

Definition health_catch (p : page) : completion :=
  Normal (console_write "Error checking health:" p).

(** *** The event loop *)

(** How a [fetch(...).then(response => response.json())] ends: rejected
    (no connection, or a body that is not JSON) or resolved with the
    parsed body.  An HTTP error status with a JSON body resolves. *)
Inductive outcome : Type :=
  | Rejected
  | Resolved (data : value).

Inductive event : Type :=
  | InputText (value : string) (scrollHeight : string)
  | Keypress (key : string) (shiftKey : bool)
  | ClickSend
  | ClickUpload
  | ClickCloseModal
  | ChangeFile (f : option file)
  | ClickConfirm
  | FetchSettled (id : nat) (o : outcome)
  | ReaderSettled (id : nat) (result : option string)
  | TimerFired (id : nat).

Fixpoint take_continuation (id : nat) (l : list (nat * continuation))
    : option (continuation * list (nat * continuation)) :=
  match l with
  | [] => None
  | (i, k) :: rest =>
      if Nat.eqb i id then Some (k, rest)
      else match take_continuation id rest with
           | Some (k', rest') => Some (k', (i, k) :: rest')
           | None => None
           end
  end.

Definition set_waiting (l : list (nat * continuation)) (p : page) : page :=
  {| chatInput_value := chatInput_value p;
     chatInput_height := chatInput_height p;
     chatMessages := chatMessages p;
     uploadModal_display := uploadModal_display p;
     fileUpload_files := fileUpload_files p;
     uploadStatus_textContent := uploadStatus_textContent p;
     uploadStatus_className := uploadStatus_className p;
     uploadProgress_width := uploadProgress_width p;
     confirmUploadBtn_disabled := confirmUploadBtn_disabled p;
     sessionId := sessionId p; fetched := fetched p; waiting := l;
     fresh := fresh p; console := console p |}.

(** The continuation registered under [id], taken off the list. *)
Definition resume (id : nat) (p : page) : option (continuation * page) :=
  match take_continuation id (waiting p) with
  | Some (k, rest) => Some (k, set_waiting rest p)
  | None => None
  end.

(** A settled [fetch] runs the handlers chained on it. *)
Definition on_fetch (k : continuation) (o : outcome) (p : page) : page :=
  match k, o with
  | ChatReply typingIndicator, Resolved data =>
      catching (chat_then typingIndicator data p) (chat_catch typingIndicator)
  | ChatReply typingIndicator, Rejected =>
      settled (chat_catch typingIndicator p)
  | UploadReply f, Resolved data =>
      catching (upload_then f data p) upload_catch
  | UploadReply f, Rejected => settled (upload_catch p)
  | HealthReply, Resolved data => catching (health_then data p) health_catch
  | HealthReply, Rejected => settled (health_catch p)
  | FileRead _, _ => p
  | CloseModalTimer, _ => p
  end.

(** One turn of the event loop.  A disabled button dispatches no click;
    an event for a continuation that is not waiting does not occur. *)
Definition step (e : event) (p : page) : page :=
  match e with
  | InputText v scrollHeight =>
      autoResizeTextarea scrollHeight (set_chatInput v (chatInput_height p) p)
  | Keypress key shiftKey => handleInputKeypress key shiftKey p
  | ClickSend => sendMessage p
  | ClickUpload => openUploadModal p
  | ClickCloseModal => closeUploadModal p
  | ChangeFile f => handleFileSelect (set_fileUpload_files f p)
  | ClickConfirm =>
      if confirmUploadBtn_disabled p then p else uploadDocument p
  | FetchSettled id o =>
      match resume id p with
      | Some (FileRead _, _) | Some (CloseModalTimer, _) | None => p
      | Some (k, p') => on_fetch k o p'
      end
  | ReaderSettled id result =>
      match resume id p with
      | Some (FileRead f, p') =>
          match result with
          | Some data_url => reader_onload f data_url p'
          | None => reader_onerror p'
          end
      | _ => p
      end
  | TimerFired id =>
      match resume id p with
      | Some (CloseModalTimer, p') => closeUploadModal p'
      | _ => p
      end
  end.

Definition run (events : list event) (p : page) : page :=
  fold_left (fun q e => step e q) events p.

(** The [DOMContentLoaded] handler: [random36] is
    [Math.random().toString(36)], [html] the document as the markup left
    it.  Registering the listeners is what makes [step] apply; then
    [init] checks the health interface. *)
Definition DOMContentLoaded (random36 : string) (html : page) : page :=
  checkHealth
    {| chatInput_value := chatInput_value html;
       chatInput_height := chatInput_height html;
       chatMessages := chatMessages html;
       uploadModal_display := uploadModal_display html;
       fileUpload_files := fileUpload_files html;
       uploadStatus_textContent := uploadStatus_textContent html;
       uploadStatus_className := uploadStatus_className html;
       uploadProgress_width := uploadProgress_width html;
       confirmUploadBtn_disabled := confirmUploadBtn_disabled html;
       sessionId := "session_" ++ substring 2 15 random36;
       fetched := []; waiting := []; fresh := 0; console := [] |}.

(** A chat request that carries the session identifier [sid]. *)
Definition carries_session (sid : string) (r : request) : Prop :=
  match r with
  | GET _ => True
  | POST url _ body =>
      url = CHAT_ENDPOINT ->
      exists m, body = VObj [("message", VStr m); ("session_id", VStr sid)]
  end.

(** Two pages with the same identifier and the same log of requests. *)
Definition same_wire (p q : page) : Prop :=
  sessionId q = sessionId p /\ fetched q = fetched p.

(** A document with an empty chat and the upload controls at rest. *)
Definition blank : page :=
  {| chatInput_value := ""; chatInput_height := "";
     chatMessages := []; uploadModal_display := "";
     fileUpload_files := None;
     uploadStatus_textContent := ""; uploadStatus_className := "";
     uploadProgress_width := ""; confirmUploadBtn_disabled := true;
     sessionId := ""; fetched := []; waiting := []; fresh := 0;
     console := [] |}.

End Client.

(** ** The Vector Store

    The store lives behind the HTTP interfaces and is not among the
    sources.  Every definition of this module is written from the
    contract of the store: its persisted layout, [upsert_chunks],
    [query], [delete_document] and the Retrieval Engine's [retrieve]. *)
Module VectorStore.

Definition vector : Type := list Q.

(** Modelled from the spec: the chunk as the Ingestion Pipeline hands it
    to [upsert_chunks] (the store's code is missing): ordinal position,
    text, embedding vector. *)
Record chunk := { ordinal : nat; text : string; embedding : vector }.

(** Modelled from the spec: the persisted layout of the store (missing
    from the sources), "one record per chunk --
    (document_id, ordinal, text, vector, version_tag)", with the
    ingestion timestamp that breaks ties. *)
Record entry := {
  document_id : string;
  body : chunk;
  version_tag : nat;
  ingested : nat
}.

(** Modelled from the spec: the state of the store (missing from the
    sources): the records, and per document the version tag that readers
    follow, the "pointer" of the versioned write. *)
Record store := {
  records : list entry;
  live : gmap string nat
}.

Definition empty_store : store := {| records := []; live := ∅ |}.

(** Modelled from the spec: what a reader sees (the read path of the
    missing store): the records whose tag is the live one of their
    document. *)
Definition is_live (s : store) (e : entry) : bool :=
  bool_decide (live s !! document_id e = Some (version_tag e)).

Definition visible (s : store) : list entry :=
  List.filter (is_live s) (records s).

(** The chunk set a reader observes for one document. *)
Definition read (doc : string) (s : store) : list chunk :=
  List.map body
    (List.filter (fun e => String.eqb (document_id e) doc) (visible s)).

(** The records of one document, whatever their tag. *)
Definition stored (doc : string) (s : store) : list entry :=
  List.filter (fun e => String.eqb (document_id e) doc) (records s).

(** A tag no record and no pointer of the store uses. *)
Definition next_tag (s : store) : nat :=
  S (Nat.max (list_max (List.map version_tag (records s)))
             (list_max (List.map snd (map_to_list (live s))))).

(** Modelled from the spec: the steps of the versioned write of
    [upsert_chunks] (its code is missing): "write new chunks under a new
    version tag, then flip a pointer/delete old version". *)
Inductive write_step : Type :=
  | Write (e : entry)
  | Flip (doc : string) (tag : nat)
  | Purge (doc : string) (keep : nat).

Definition apply_step (w : write_step) (s : store) : store :=
  match w with
  | Write e => {| records := records s ++ [e]; live := live s |}
  | Flip doc tag => {| records := records s; live := <[doc := tag]> (live s) |}
  | Purge doc keep =>
      {| records :=
           List.filter
             (fun e => negb (String.eqb (document_id e) doc)
                       || Nat.eqb (version_tag e) keep)
             (records s);
         live := live s |}
  end.

Definition new_entry (doc : string) (tag now : nat) (c : chunk) : entry :=
  {| document_id := doc; body := c; version_tag := tag; ingested := now |}.

Definition upsert_steps (doc : string) (chunks : list chunk) (now : nat)
    (s : store) : list write_step :=
  let tag := next_tag s in
  List.map (fun c => Write (new_entry doc tag now c)) chunks
  ++ [Flip doc tag; Purge doc tag].

(** The store once some new records are written, the pointer not yet
    flipped; and once the pointer is flipped to the new tag. *)
Definition written (s : store) (es : list entry) : store :=
  {| records := records s ++ es; live := live s |}.

Definition flipped (s : store) (doc : string) (es : list entry) : store :=
  {| records := records s ++ es; live := <[doc := next_tag s]> (live s) |}.

(** Every state the store goes through during a write, the first and
    the last included: the states a concurrent reader can meet. *)
Fixpoint states (steps : list write_step) (s : store) : list store :=
  match steps with
  | [] => [s]
  | w :: rest => s :: states rest (apply_step w s)
  end.

(** Modelled from the spec: [upsert_chunks(document_id,
    chunks_with_vectors)] of the missing store, as the versioned write
    run to its end. *)
Definition upsert_chunks (doc : string) (chunks : list chunk) (now : nat)
    (s : store) : store :=
  fold_left (fun st w => apply_step w st) (upsert_steps doc chunks now s) s.

(** Modelled from the spec: [delete_document(document_id)] of the
    missing store, "removes all chunks for that document". *)
Definition delete_document (doc : string) (s : store) : store :=
  {| records :=
       List.filter (fun e => negb (String.eqb (document_id e) doc))
                   (records s);
     live := delete doc (live s) |}.

(** What a reader may observe while a document is being replaced: the
    chunk set from before or the new one for that document, and for any
    other document what it held before. *)
Definition untorn (doc : string) (chunks : list chunk) (s st : store) : Prop :=
  (read doc st = read doc s \/ read doc st = chunks)
  /\ forall other, other <> doc -> read other st = read other s.

(** Re-ingesting a document over and over. *)
Fixpoint reingest (doc : string) (inputs : list (list chunk * nat))
    (s : store) : store :=
  match inputs with
  | [] => s
  | (chunks, now) :: rest => reingest doc rest (upsert_chunks doc chunks now s)
  end.

Section Query.

(** The similarity metric.  The contract names the cosine of the angle
    between the two vectors; the store computes it in floating point,
    and ranking and thresholding use nothing of it but its values, so it
    is a parameter here. *)
Variable similarity : vector -> vector -> Q.

(** The Embedding Client, a remote model that can fail. *)
Variable embed : string -> option vector.

Record hit := { found : entry; score : Q }.

Definition score_entry (query_vector : vector) (e : entry) : hit :=
  {| found := e; score := similarity query_vector (embedding (body e)) |}.

(** Modelled from the spec: the ties of the ranking of the missing
    [query], "broken by earlier ingestion timestamp then by document id
    then ordinal". *)
Definition tie_compare (a b : entry) : comparison :=
  match Nat.compare (ingested a) (ingested b) with
  | Eq =>
      match String.compare (document_id a) (document_id b) with
      | Eq => Nat.compare (ordinal (body a)) (ordinal (body b))
      | c => c
      end
  | c => c
  end.

(** [Lt] when [a] comes before [b]: the higher score first. *)
Definition rank_compare (a b : hit) : comparison :=
  match Qcompare (score b) (score a) with
  | Eq => tie_compare (found a) (found b)
  | c => c
  end.

Definition ranks_before (a b : hit) : Prop := rank_compare a b <> Gt.

#[export] Instance ranks_before_dec : RelDecision ranks_before.
Proof. intros a b. unfold ranks_before. apply _. Defined.

(** Non-increasing by score. *)
Definition by_score (a b : hit) : Prop := (score b <= score a)%Q.

(** Modelled from the spec: [query(vector, top_k, similarity_threshold)]
    of the missing store: score every stored chunk a reader can see,
    keep those whose score "meets or exceeds" the threshold, order them
    "descending by score", return the [top_k] first. *)
Definition query (query_vector : vector) (top_k : nat) (threshold : Q)
    (s : store) : list hit :=
  firstn top_k
    (merge_sort ranks_before
       (List.filter (fun h => Qle_bool threshold (score h))
                    (List.map (score_entry query_vector) (visible s)))).

(** Modelled from the spec: [retrieve(query_text, top_k, threshold)] of
    the missing Retrieval Engine: embed the query, then query the store;
    a failure of the Embedding Client is surfaced. *)
Definition retrieve (query_text : string) (top_k : nat) (threshold : Q)
    (s : store) : option (list hit) :=
  match embed query_text with
  | Some query_vector => Some (query query_vector top_k threshold s)
  | None => None
  end.

End Query.

(** The inner product, which is the cosine on vectors of length one; it
    serves to run the contract on examples. *)
Definition dot (a b : vector) : Q :=
  fold_right Qplus 0%Q (List.map (fun p => (fst p * snd p)%Q) (combine a b)).

End VectorStore.

(** ** What the pages of a run have in common

    Notions for stating what the script keeps true from one event to the
    next. *)
Module Reach.
Import JsString Citation Client.

(** The typing indicators among the children of the chat, in order. *)
Definition typing_ids (l : list node) : list nat :=
  flat_map (fun n => match n with Typing i => [i] | Message _ _ => [] end) l.

(** The message bubbles among the children of the chat, in order. *)
Definition messages_of (l : list node) : list node :=
  List.filter (fun n => match n with Message _ _ => true | Typing _ => false end)
              l.

(** The typing indicators that the pending chat requests will remove, in
    the order the requests were sent. *)
Definition awaited_indicators (w : list (nat * continuation)) : list nat :=
  flat_map (fun ik => match snd ik with
                      | ChatReply ind => [ind]
                      | _ => []
                      end) w.

(** The bookkeeping of [addTypingIndicator] and [removeChild]: the
    indicators on the screen are those of the pending chat requests, no
    node and no continuation is counted twice, and the numbers in use lie
    below the next fresh one. *)
Definition tidy (p : page) : Prop :=
  typing_ids (chatMessages p) = awaited_indicators (waiting p)
  /\ List.NoDup (typing_ids (chatMessages p))
  /\ Forall (fun i => i < fresh p) (typing_ids (chatMessages p))
  /\ List.NoDup (List.map fst (waiting p))
  /\ Forall (fun i => i < fresh p) (List.map fst (waiting p)).

(** A request the script makes after loading: a JSON POST to the chat or
    to the upload endpoint. *)
Definition json_post (r : request) : Prop :=
  match r with
  | GET _ => False
  | POST url content_type _ =>
      (url = CHAT_ENDPOINT \/ url = UPLOAD_ENDPOINT)
      /\ content_type = "application/json"
  end.

(** The bubbles of the user, and the requests to the chat endpoint. *)
Definition is_user_bubble (n : node) : bool :=
  match n with
  | Message className _ => String.eqb className "message user"
  | Typing _ => false
  end.

Definition is_chat_post (r : request) : bool :=
  match r with
  | GET _ => false
  | POST url _ _ => String.eqb url CHAT_ENDPOINT
  end.

Definition user_bubbles (p : page) : nat :=
  length (List.filter is_user_bubble (chatMessages p)).

Definition chat_posts (p : page) : nat :=
  length (List.filter is_chat_post (fetched p)).

(** [pieces.join(c)], the inverse of [split]. *)
Fixpoint join (c : ascii) (pieces : list string) : string :=
  match pieces with
  | [] => EmptyString
  | [piece] => piece
  | piece :: rest => piece ++ String c (join c rest)
  end.

(** White space only (or empty). *)
Definition is_blank (s : string) : bool :=
  forallb is_whitespace (list_ascii_of_string s).

(** [ps] are the lines of [text] that are not blank, in their order:
    [text] is some newline-free lines joined by newlines, and [ps] are
    those among them that hold more than white space. *)
Definition nonblank_lines (text : string) (ps : list string) : Prop :=
  exists lines,
    join newline lines = text
    /\ Forall (fun l => free_of newline l = true) lines
    /\ ps = List.filter (fun l => negb (is_blank l)) lines.

(** A reply on which the [then] handler of the chat throws: [success]
    cannot be read, or it is truthy and [response] is not a string. *)
Definition unusable_chat_reply (data : value) : Prop :=
  get "success" data = None
  \/ exists success response,
       get "success" data = Some success /\ truthy success = true
       /\ get "response" data = Some response
       /\ forall text, response <> VStr text.

(** An upload that did not succeed: the request was rejected, the reply
    cannot be read, or its [success] is not truthy. *)
Definition upload_failed (o : outcome) : Prop :=
  match o with
  | Rejected => True
  | Resolved data =>
      get "success" data = None
      \/ exists success, get "success" data = Some success
                         /\ truthy success = false
  end.

End Reach.

(** * Properties of the citation rewriting *)
Module CitationFacts.
Import JsString Citation.

Lemma append_cons (x : ascii) (a b : string) :
  (String x a ++ b)%string = String x (a ++ b).
Proof. reflexivity. Qed.

Lemma append_assoc (a b c : string) : ((a ++ b) ++ c = a ++ (b ++ c))%string.
Proof.
  induction a as [|x a IH]; [reflexivity|].
  now rewrite !append_cons, IH.
Qed.

(** The defining equations of [replace_markers], by the outcome of the
    match at the head. *)
Lemma replace_markers_match (c : ascii) (s digits rest : string) :
  match_marker (String c s) = Some (digits, rest) ->
  replace_markers (String c s)
  = (source_span digits ++ replace_markers rest)%string.
Proof.
  intros H. rewrite replace_markers_equation_2.
  generalize (inspect (match_marker (String c s))). intros [o e].
  destruct o as [[d' r']|].
  - rewrite replace_markers_clause_2_equation_1.
    assert (E : Some (d', r') = Some (digits, rest)) by congruence.
    inversion E; reflexivity.
  - congruence.
Qed.

Lemma replace_markers_skip (c : ascii) (s : string) :
  match_marker (String c s) = None ->
  replace_markers (String c s) = String c (replace_markers s).
Proof.
  intros H. rewrite replace_markers_equation_2.
  generalize (inspect (match_marker (String c s))). intros [o e].
  destruct o as [[d' r']|].
  - congruence.
  - now rewrite replace_markers_clause_2_equation_2.
Qed.

Lemma strip_prefix_app (p s r x : string) :
  strip_prefix p s = Some r -> strip_prefix p (s ++ x) = Some (r ++ x)%string.
Proof.
  revert s; induction p as [|a p IH]; intros s H; simpl in *.
  - now inversion H.
  - destruct s as [|b s]; [discriminate|]. rewrite append_cons. simpl.
    destruct (Ascii.eqb a b); [now apply IH|discriminate].
Qed.

(** A prefix free of the opening bracket cannot be completed by a text
    that starts with that bracket. *)
Lemma strip_prefix_bracket (p s x : string) :
  forallb (fun c => negb (Ascii.eqb c "[")) (list_ascii_of_string p) = true ->
  strip_prefix p s = None ->
  strip_prefix p (s ++ String "[" x) = None.
Proof.
  revert s; induction p as [|a p IH]; intros s Hp H; simpl in *.
  - discriminate.
  - apply andb_prop in Hp as [Ha Hp].
    destruct s as [|b s].
    + change (EmptyString ++ String "[" x)%string with (String "[" x). simpl.
      destruct (Ascii.eqb a "["); [discriminate|reflexivity].
    + rewrite append_cons. simpl.
      destruct (Ascii.eqb a b); [now apply IH|reflexivity].
Qed.

Lemma span_digits_app (s d r x : string) (c : ascii) :
  span_digits s = (d, r) -> is_digit c = false ->
  span_digits (s ++ String c x) = (d, (r ++ String c x)%string).
Proof.
  revert d r; induction s as [|a s IH]; intros d r H Hc;
    [change (EmptyString ++ String c x)%string with (String c x)
    |rewrite append_cons]; simpl in *.
  - inversion H; subst. now rewrite Hc.
  - destruct (is_digit a).
    + destruct (span_digits s) as [d' r'] eqn:E. inversion H; subst.
      now rewrite (IH d' r eq_refl Hc).
    + now inversion H.
Qed.

Lemma span_digits_all (ds x : string) (c : ascii) :
  forallb is_digit (list_ascii_of_string ds) = true -> is_digit c = false ->
  span_digits (ds ++ String c x) = (ds, String c x).
Proof.
  intros Hd Hc. induction ds as [|a ds IH];
    [change (EmptyString ++ String c x)%string with (String c x)
    |rewrite append_cons]; simpl in *.
  - now rewrite Hc.
  - apply andb_prop in Hd as [Ha Hd]. now rewrite Ha, (IH Hd).
Qed.

(** A match inside a text is still there when the text goes on. *)
Lemma match_marker_app (s d r x : string) :
  match_marker s = Some (d, r) ->
  match_marker (s ++ String "[" x) = Some (d, (r ++ String "[" x)%string).
Proof.
  unfold match_marker. intros H.
  destruct (strip_prefix "[Document " s) as [after|] eqn:Hp; [|discriminate].
  rewrite (strip_prefix_app _ _ _ _ Hp).
  destruct (span_digits after) as [d0 q] eqn:Hd.
  rewrite (span_digits_app _ _ _ x "[" Hd eq_refl).
  destruct d0 as [|d1 d0]; [discriminate|].
  destruct q as [|c q]; [discriminate|]. simpl.
  destruct (Ascii.eqb c "]"); [|discriminate].
  now inversion H.
Qed.

(** A text that goes on with an opening bracket gets no match at its head
    that it did not have. *)
Lemma match_marker_none_app (c : ascii) (s x : string) :
  match_marker (String c s) = None ->
  match_marker (String c s ++ String "[" x) = None.
Proof.
  unfold match_marker. intros H.
  destruct (strip_prefix "[Document " (String c s)) as [after|] eqn:Hp.
  - rewrite (strip_prefix_app _ _ _ _ Hp).
    destruct (span_digits after) as [d0 q] eqn:Hd.
    rewrite (span_digits_app _ _ _ x "[" Hd eq_refl).
    destruct d0 as [|d1 d0]; [reflexivity|].
    destruct q as [|c' q]; [reflexivity|]. simpl.
    destruct (Ascii.eqb c' "]"); [discriminate|reflexivity].
  - rewrite append_cons.
    change (strip_prefix "[Document " (String c s))
      with (if Ascii.eqb "[" c then strip_prefix "Document " s else None)
      in Hp.
    change (strip_prefix "[Document " (String c (s ++ String "[" x)))
      with (if Ascii.eqb "[" c
            then strip_prefix "Document " (s ++ String "[" x) else None).
    destruct (Ascii.eqb "[" c); [|reflexivity].
    now rewrite (strip_prefix_bracket "Document " s x eq_refl Hp).
Qed.

Lemma match_marker_here (digits post : string) :
  digits <> "" -> forallb is_digit (list_ascii_of_string digits) = true ->
  match_marker ("[Document " ++ digits ++ "]" ++ post) = Some (digits, post).
Proof.
  intros Hne Hd. unfold match_marker.
  change (strip_prefix "[Document " ("[Document " ++ digits ++ "]" ++ post))
    with (Some (digits ++ String "]" post)%string).
  cbv beta iota.
  rewrite (span_digits_all digits post "]" Hd eq_refl).
  destruct digits as [|d ds]; [congruence|]. reflexivity.
Qed.

(** What stands before an opening bracket is rewritten on its own. *)
Lemma replace_markers_before (pre tail : string) :
  replace_markers (pre ++ String "[" tail)
  = (replace_markers pre ++ replace_markers (String "[" tail))%string.
Proof.
  remember (String.length pre) as n eqn:Hn. revert pre Hn.
  induction n as [n IH] using lt_wf_ind. intros pre Hn.
  destruct pre as [|c pre].
  - rewrite replace_markers_equation_1. reflexivity.
  - destruct (match_marker (String c pre)) as [[d r]|] eqn:Hm.
    + pose proof (match_marker_app _ _ _ tail Hm) as Hm'.
      rewrite append_cons in Hm' |- *.
      rewrite (replace_markers_match _ _ _ _ Hm').
      rewrite (replace_markers_match _ _ _ _ Hm).
      apply match_marker_shorter in Hm.
      rewrite (IH (String.length r)); [|subst n; exact Hm|reflexivity].
      now rewrite append_assoc.
    + pose proof (match_marker_none_app _ _ tail Hm) as Hm'.
      rewrite append_cons in Hm' |- *.
      rewrite (replace_markers_skip _ _ Hm'), (replace_markers_skip _ _ Hm).
      rewrite append_cons. f_equal.
      apply (IH (String.length pre)); [subst n; simpl; lia|reflexivity].
Qed.

Lemma replace_markers_around (pre digits post : string) :
  digits <> "" -> forallb is_digit (list_ascii_of_string digits) = true ->
  replace_markers (pre ++ "[Document " ++ digits ++ "]" ++ post)
  = (replace_markers pre ++ source_span digits ++ replace_markers post)%string.
Proof.
  intros Hne Hd.
  change (pre ++ "[Document " ++ digits ++ "]" ++ post)%string
    with (pre ++ String "[" ("Document " ++ digits ++ "]" ++ post))%string.
  rewrite replace_markers_before. f_equal.
  apply replace_markers_match.
  now apply (match_marker_here digits post).
Qed.

Lemma replace_markers_none (text : string) :
  has_marker text = false -> replace_markers text = text.
Proof.
  induction text as [|c s IH]; intros H.
  - apply replace_markers_equation_1.
  - simpl in H.
    destruct (match_marker (String c s)) eqn:Hm; [discriminate|].
    rewrite (replace_markers_skip _ _ Hm). f_equal. now apply IH.
Qed.

End CitationFacts.

(** * Properties of the client *)
Module ClientFacts.
Import JsString Citation CitationFacts Client.
Local Open Scope list_scope.

(** ** The string primitives on examples *)

Example trim_example :
  trim (String "009"%char " hi  there " ++ String "010"%char "")%string
  = "hi  there".
Proof. reflexivity. Qed.

Example fileExtension_upper : fileExtension "Returns Policy.PDF" = ".pdf".
Proof. reflexivity. Qed.

Example fileExtension_last_dot : fileExtension "archive.tar.GZ" = ".gz".
Proof. reflexivity. Qed.

Example fileExtension_no_dot : fileExtension "README" = "readme".
Proof. reflexivity. Qed.

Example split_example : split "," "a,b,,c" = ["a"; "b"; ""; "c"].
Proof. reflexivity. Qed.

Example base64_of_no_comma : base64_of "data:" = VUndefined.
Proof. reflexivity. Qed.

Example replace_markers_example :
  replace_markers "See [Document 12], not [Document x] or [document 3]."
  = ("See " ++ source_span "12"
     ++ ", not [Document x] or [document 3].")%string.
Proof. vm_compute. reflexivity. Qed.

(** ** Blank input *)

Lemma trimEnd_blank (s : string) :
  forallb is_whitespace (list_ascii_of_string s) = true -> trimEnd s = "".
Proof.
  induction s as [|c s IH]; simpl; intros H; [reflexivity|].
  apply andb_prop in H as [Hc Hs]. rewrite (IH Hs), Hc. reflexivity.
Qed.

Lemma trimEnd_keeps (s : string) :
  trimEnd s = "" -> forallb is_whitespace (list_ascii_of_string s) = true.
Proof.
  induction s as [|c s IH]; simpl; intros H; [reflexivity|].
  destruct (is_whitespace c) eqn:Hc; simpl in *; [|discriminate].
  destruct (trimEnd s) eqn:Ht; simpl in *; [|discriminate].
  now apply IH.
Qed.

Lemma trimStart_suffix_blank (s : string) :
  forallb is_whitespace (list_ascii_of_string (trimStart s)) = true ->
  forallb is_whitespace (list_ascii_of_string s) = true.
Proof.
  induction s as [|c s IH]; simpl; intros H; [reflexivity|].
  destruct (is_whitespace c) eqn:Hc; simpl in *.
  - now apply IH.
  - rewrite Hc in H. discriminate.
Qed.

Lemma trimStart_blank (s : string) :
  forallb is_whitespace (list_ascii_of_string s) = true -> trimStart s = "".
Proof.
  induction s as [|c s IH]; simpl; intros H; [reflexivity|].
  apply andb_prop in H as [Hc Hs]. rewrite Hc. now apply IH.
Qed.

(** A string trims to nothing exactly when it is empty or made of white
    space only. *)
Lemma trim_blank_iff (s : string) :
  trim s = "" <-> forallb is_whitespace (list_ascii_of_string s) = true.
Proof.
  unfold trim. split.
  - intros H. apply trimStart_suffix_blank. now apply trimEnd_keeps.
  - intros H. rewrite (trimStart_blank s H). reflexivity.
Qed.

Lemma sendMessage_blank_noop_aux (p : page) :
  trim (chatInput_value p) = "" -> sendMessage p = p.
Proof. intros H. unfold sendMessage. now rewrite H. Qed.

(** C9. When the chat input trims to the empty string (it is empty or
    holds white space only), [sendMessage] does nothing: the page is the
    same afterwards, so no request was issued, no node was added to the
    chat and the input keeps its value; the same holds for the click on
    the send button and for the Enter key, which call it. *)
Theorem sendMessage_blank_noop (p : page) :
  trim (chatInput_value p) = "" ->
  sendMessage p = p
  /\ fetched (sendMessage p) = fetched p
  /\ chatMessages (sendMessage p) = chatMessages p
  /\ chatInput_value (sendMessage p) = chatInput_value p
  /\ step ClickSend p = p
  /\ step (Keypress "Enter" false) p = p.
Proof.
  intros H.
  assert (E : sendMessage p = p) by (unfold sendMessage; now rewrite H).
  simpl. unfold handleInputKeypress. simpl. rewrite E. repeat split; reflexivity.
Qed.

Lemma sendMessage_blank_noop_witness :
  let p := step (InputText (String "009"%char (String "010"%char "   ")) "20")
                (DOMContentLoaded "0.4fzyo82mvyr" blank) in
  sendMessage p = p /\ fetched (sendMessage p) = fetched p.
Proof.
  intros p.
  destruct (sendMessage_blank_noop p eq_refl) as (H1 & H2 & _).
  split; [exact H1 | exact H2].
Defined.

(** ** The chat exchange *)

Lemma resume_page (id : nat) (p p' : page) (k : continuation) :
  resume id p = Some (k, p') -> exists rest, p' = set_waiting rest p.
Proof.
  unfold resume. destruct (take_continuation id (waiting p)) as [[k' rest]|];
    [|discriminate].
  intros H; inversion H; subst. now exists rest.
Qed.

Lemma sendMessage_sends (p : page) (m : string) :
  trim (chatInput_value p) = m -> m <> "" ->
  fetched (sendMessage p)
  = fetched p ++ [POST CHAT_ENDPOINT "application/json"
                    (VObj [("message", VStr m);
                           ("session_id", VStr (sessionId p))])]
  /\ chatMessages (sendMessage p)
     = chatMessages p ++ [Message "message user" (paragraphs_of m);
                          Typing (fresh p)]
  /\ waiting (sendMessage p)
     = waiting p ++ [(S (fresh p), ChatReply (fresh p))]
  /\ chatInput_value (sendMessage p) = "".
Proof.
  intros Hm Hne. unfold sendMessage. rewrite Hm.
  destruct m as [|c m]; [congruence|]. simpl.
  rewrite <- app_assoc. repeat split; reflexivity.
Qed.

Lemma chat_reply_success (p p' : page) (id ind : nat) (data success : value)
    (response : string) :
  resume id p = Some (ChatReply ind, p') ->
  existsb (is_typing ind) (chatMessages p) = true ->
  get "success" data = Some success -> truthy success = true ->
  get "response" data = Some (VStr response) ->
  chatMessages (step (FetchSettled id (Resolved data)) p)
  = without_typing ind (chatMessages p)
    ++ [Message "message bot" (paragraphs_of (replace_markers response))].
Proof.
  intros Hr Ht Hs Hts Hresp. simpl. rewrite Hr.
  apply resume_page in Hr as [rest ->]. simpl.
  unfold chat_then, removeChild. simpl. rewrite Ht. simpl.
  unfold reading. rewrite Hs, Hts, Hresp. reflexivity.
Qed.

Lemma chat_reply_failure (p p' : page) (id ind : nat) (data success error : value) :
  resume id p = Some (ChatReply ind, p') ->
  existsb (is_typing ind) (chatMessages p) = true ->
  get "success" data = Some success -> truthy success = false ->
  get "error" data = Some error ->
  chatMessages (step (FetchSettled id (Resolved data)) p)
  = without_typing ind (chatMessages p)
    ++ [Message "message bot"
          (paragraphs_of
             (replace_markers
                ("Error: "
                 ++ to_string (or_else error (VStr "Unknown error occurred")))%string))].
Proof.
  intros Hr Ht Hs Hts He. simpl. rewrite Hr.
  apply resume_page in Hr as [rest ->]. simpl.
  unfold chat_then, removeChild. simpl. rewrite Ht. simpl.
  unfold reading. rewrite Hs, Hts, He. reflexivity.
Qed.

Lemma apology_paragraphs : paragraphs_of (replace_markers apology) = [apology].
Proof. vm_compute. reflexivity. Qed.

Lemma chat_reply_rejected (p p' : page) (id ind : nat) :
  resume id p = Some (ChatReply ind, p') ->
  existsb (is_typing ind) (chatMessages p) = true ->
  chatMessages (step (FetchSettled id Rejected) p)
  = without_typing ind (chatMessages p) ++ [Message "message bot" [apology]]
  /\ console (step (FetchSettled id Rejected) p)
     = console p ++ ["Error sending message:"]
  /\ fetched (step (FetchSettled id Rejected) p) = fetched p.
Proof.
  intros Hr Ht. simpl. rewrite Hr.
  apply resume_page in Hr as [rest ->]. simpl.
  unfold chat_catch, removeChild. simpl. rewrite Ht. simpl.
  change (replace_markers _) with (replace_markers apology).
  rewrite apology_paragraphs. repeat split; reflexivity.
Qed.

(** ** Failures of a chat query *)

(** C5, as stated, fails: when the server answers a query with
    [success: false], the text of its [error] field is put on the screen
    behind "Error: "; the apology is not shown. *)
Lemma reported_failure_shows_error_detail :
  let p := run [InputText "Where is my order?" "20"; ClickSend]
               (DOMContentLoaded "0.4fzyo82mvyr" blank) in
  let detail :=
    "An error occurred (ModelError) when calling the InvokeEndpoint operation" in
  let reply := VObj [("success", VBool false); ("error", VStr detail)] in
  chatMessages (step (FetchSettled 2 (Resolved reply)) p)
  = [Message "message user" ["Where is my order?"];
     Message "message bot" [("Error: " ++ detail)%string]]
  /\ chatMessages (step (FetchSettled 2 (Resolved reply)) p)
     <> [Message "message user" ["Where is my order?"];
         Message "message bot" [apology]].
Proof.
  intros p detail reply.
  assert (E : chatMessages (step (FetchSettled 2 (Resolved reply)) p)
              = [Message "message user" ["Where is my order?"];
                 Message "message bot" [("Error: " ++ detail)%string]])
    by (vm_compute; reflexivity).
  split; [exact E|]. rewrite E. vm_compute. discriminate.
Qed.

(** C5, amended.  When the request of a chat query is rejected (no
    connection, or a reply that is not JSON), the typing indicator is
    taken away and the one thing shown is the fixed apology; the error
    itself goes to the console only and nothing is sent again.  When the
    server reports the failure itself ([success] not truthy), the client
    shows "Error: " followed by the server's [error] text (or by
    "Unknown error occurred" when that is empty or missing). *)
Theorem chat_failure_display (p p' : page) (id ind : nat) :
  resume id p = Some (ChatReply ind, p') ->
  existsb (is_typing ind) (chatMessages p) = true ->
  (chatMessages (step (FetchSettled id Rejected) p)
   = without_typing ind (chatMessages p) ++ [Message "message bot" [apology]]
   /\ console (step (FetchSettled id Rejected) p)
      = console p ++ ["Error sending message:"]
   /\ fetched (step (FetchSettled id Rejected) p) = fetched p)
  /\ (forall data success error,
        get "success" data = Some success -> truthy success = false ->
        get "error" data = Some error ->
        chatMessages (step (FetchSettled id (Resolved data)) p)
        = without_typing ind (chatMessages p)
          ++ [Message "message bot"
                (paragraphs_of
                   (replace_markers
                      ("Error: "
                       ++ to_string
                            (or_else error
                               (VStr "Unknown error occurred")))%string))]).
Proof.
  intros Hr Ht. split.
  - eapply chat_reply_rejected; eauto.
  - intros data success error Hs Hts He. eapply chat_reply_failure; eauto.
Qed.

Lemma chat_failure_display_witness :
  let p := run [InputText "Where is my order?" "20"; ClickSend]
               (DOMContentLoaded "0.4fzyo82mvyr" blank) in
  chatMessages (step (FetchSettled 2 Rejected) p)
  = without_typing 1 (chatMessages p) ++ [Message "message bot" [apology]].
Proof.
  intros p.
  destruct (chat_failure_display p _ 2 1 eq_refl eq_refl) as [[H _] _].
  exact H.
Defined.

(** A reply that the [then] handler cannot use (here [success] without a
    [response]) is outside both statements above: the handler throws
    after it has removed the typing indicator, the [catch] handler then
    fails on removing it again, and nothing is shown. *)
Example unusable_reply_shows_nothing :
  let p := run [InputText "Where is my order?" "20"; ClickSend]
               (DOMContentLoaded "0.4fzyo82mvyr" blank) in
  chatMessages
    (step (FetchSettled 2 (Resolved (VObj [("success", VBool true)]))) p)
  = [Message "message user" ["Where is my order?"]].
Proof. vm_compute. reflexivity. Qed.

(** ** Citation markers on the screen *)

(** C3, as stated, fails: the reply to a query that retrieved nothing
    carries no list of chunks at all, and a marker in its text is put on
    the screen as a source label; nothing is stripped. *)
Lemma unsupplied_marker_is_displayed :
  let p := run [InputText "asdkjashdkjahsd" "20"; ClickSend]
               (DOMContentLoaded "0.4fzyo82mvyr" blank) in
  let reply := VObj [("success", VBool true);
                     ("response", VStr "I could not find that [Document 7].")] in
  chatMessages (step (FetchSettled 2 (Resolved reply)) p)
  = [Message "message user" ["asdkjashdkjahsd"];
     Message "message bot"
       [("I could not find that " ++ source_span "7" ++ ".")%string]]
  /\ chatMessages (step (FetchSettled 2 (Resolved reply)) p)
     <> [Message "message user" ["asdkjashdkjahsd"];
         Message "message bot" ["I could not find that ."]].
Proof.
  intros p reply.
  assert (E : chatMessages (step (FetchSettled 2 (Resolved reply)) p)
              = [Message "message user" ["asdkjashdkjahsd"];
                 Message "message bot"
                   [("I could not find that " ++ source_span "7" ++ ".")%string]])
    by (vm_compute; reflexivity).
  split; [exact E|]. rewrite E. vm_compute. discriminate.
Qed.

(** C3, amended.  In a bot message every marker [[Document N]], for any
    run of digits N, is rewritten to the label
    [<span class="source">Source N</span>], whether or not a chunk N was
    supplied: the client holds no list of chunks and strips nothing.  A
    text in which the pattern does not occur is displayed as it is, so
    the client adds no citation of its own. *)
Theorem markers_become_source_labels (p : page) (pre digits post : string) :
  digits <> "" -> forallb is_digit (list_ascii_of_string digits) = true ->
  addMessageToChat "bot"
    (VStr (pre ++ "[Document " ++ digits ++ "]" ++ post)%string) p
  = Normal (set_chatMessages
              (chatMessages p
               ++ [Message "message bot"
                     (paragraphs_of
                        (replace_markers pre ++ source_span digits
                         ++ replace_markers post)%string)])
              p)
  /\ (forall text, has_marker text = false ->
        addMessageToChat "bot" (VStr text) p
        = Normal (set_chatMessages
                    (chatMessages p
                     ++ [Message "message bot" (paragraphs_of text)])
                    p)).
Proof.
  intros Hne Hd. split.
  - unfold addMessageToChat.
    change (String.eqb "bot" "bot") with true. cbv iota.
    now rewrite (replace_markers_around pre digits post Hne Hd).
  - intros text Hnone. unfold addMessageToChat.
    change (String.eqb "bot" "bot") with true. cbv iota.
    now rewrite (replace_markers_none text Hnone).
Qed.

Lemma markers_become_source_labels_witness :
  addMessageToChat "bot" (VStr "See [Document 42] for details.") blank
  = Normal (set_chatMessages
              [Message "message bot"
                 (paragraphs_of
                    (replace_markers "See " ++ source_span "42"
                     ++ replace_markers " for details.")%string)]
              blank)
  /\ addMessageToChat "bot" (VStr "No sources here.") blank
     = Normal (set_chatMessages
                 [Message "message bot" (paragraphs_of "No sources here.")]
                 blank).
Proof.
  destruct (markers_become_source_labels blank "See " "42" " for details."
              ltac:(discriminate) eq_refl) as [H1 H2].
  split; [exact H1 | exact (H2 "No sources here." eq_refl)].
Defined.

(** ** Choosing a file *)

(** What the check of the extension does on its own: the message is set,
    and neither the confirm button nor the network is touched. *)
Lemma handleFileSelect_rejects (p : page) (f : file) :
  fileUpload_files p = Some f ->
  includes validTypes (fileExtension (name f)) = false ->
  uploadStatus_textContent (handleFileSelect p) = invalid_type_message
  /\ uploadStatus_className (handleFileSelect p) = "text-error"
  /\ confirmUploadBtn_disabled (handleFileSelect p)
     = confirmUploadBtn_disabled p
  /\ fetched (handleFileSelect p) = fetched p
  /\ waiting (handleFileSelect p) = waiting p.
Proof.
  intros Hf Hx. unfold handleFileSelect. rewrite Hf, Hx. simpl.
  repeat split; reflexivity.
Qed.

(** While the confirm button is disabled, an unsupported file leaves it
    so and a click on it sends nothing. *)
Lemma unsupported_file_not_uploaded_while_disabled (p : page) (f : file) :
  confirmUploadBtn_disabled p = true ->
  includes validTypes (fileExtension (name f)) = false ->
  let q := step (ChangeFile (Some f)) p in
  confirmUploadBtn_disabled q = true
  /\ step ClickConfirm q = q
  /\ fetched q = fetched p /\ waiting q = waiting p.
Proof.
  intros Hd Hx q.
  destruct (handleFileSelect_rejects (set_fileUpload_files (Some f) p) f
              eq_refl Hx) as (_ & _ & H3 & H4 & H5).
  assert (Hq : confirmUploadBtn_disabled q = true)
    by (unfold q; simpl step; rewrite H3; exact Hd).
  repeat split; try assumption.
  simpl. now rewrite Hq.
Qed.

(** C4, at the input where the code departs from it: once a supported
    file has enabled the confirm button, choosing an unsupported file
    shows the error message but leaves the button enabled, and the click
    on it reads the unsupported file and posts it to the upload
    endpoint. *)
Theorem unsupported_file_after_supported_is_uploaded :
  let p := run [ClickUpload;
                ChangeFile (Some {| name := "guide.pdf" |});
                ChangeFile (Some {| name := "setup.exe" |})]
               (DOMContentLoaded "0.4fzyo82mvyr" blank) in
  includes validTypes (fileExtension "setup.exe") = false
  /\ uploadStatus_textContent p = invalid_type_message
  /\ confirmUploadBtn_disabled p = false
  /\ fetched (run [ClickConfirm;
                   ReaderSettled 1
                     (Some "data:application/octet-stream;base64,TVqQAAMAAAA=")]
                  p)
     = [GET HEALTH_ENDPOINT;
        POST UPLOAD_ENDPOINT "application/json"
          (VObj [("file", VStr "TVqQAAMAAAA=");
                 ("filename", VStr "setup.exe")])].
Proof. vm_compute. repeat split; reflexivity. Qed.

(** ** The upload exchange *)

Lemma split_free (c : ascii) (s : string) :
  free_of c s = true -> split c s = [s].
Proof.
  unfold free_of. induction s as [|d s IH]; simpl; intros H; [reflexivity|].
  apply andb_prop in H as [Hd Hs]. rewrite (IH Hs).
  destruct (Ascii.eqb d c); [discriminate|reflexivity].
Qed.

Lemma split_cons (c : ascii) (s : string) :
  exists piece rest, split c s = piece :: rest.
Proof.
  induction s as [|d s (piece & rest & IH)]; simpl; [now eauto|].
  rewrite IH. destruct (Ascii.eqb d c); eauto.
Qed.

Lemma split_at_separator (c : ascii) (h t : string) :
  free_of c h = true ->
  split c (h ++ String c t) = h :: split c t.
Proof.
  unfold free_of. induction h as [|d h IH]; intros H.
  - change (EmptyString ++ String c t)%string with (String c t). simpl.
    rewrite Ascii.eqb_refl.
    destruct (split_cons c t) as (piece & rest & ->). reflexivity.
  - rewrite append_cons. simpl in *. apply andb_prop in H as [Hd Hs].
    rewrite (IH Hs). destruct (Ascii.eqb d c); [discriminate|reflexivity].
Qed.

(** Of a data URL [header,payload] the payload is what is sent. *)
Lemma base64_of_data_url (header payload : string) :
  free_of "," header = true -> free_of "," payload = true ->
  base64_of (header ++ "," ++ payload) = VStr payload.
Proof.
  intros Hh Hp. unfold base64_of.
  change (header ++ "," ++ payload)%string
    with (header ++ String "," payload)%string.
  now rewrite (split_at_separator _ _ _ Hh), (split_free _ _ Hp).
Qed.

Lemma uploadDocument_reads (p : page) (f : file) :
  fileUpload_files p = Some f -> confirmUploadBtn_disabled p = false ->
  waiting (step ClickConfirm p) = waiting p ++ [(fresh p, FileRead f)]
  /\ fetched (step ClickConfirm p) = fetched p
  /\ uploadStatus_textContent (step ClickConfirm p) = "Uploading..."
  /\ confirmUploadBtn_disabled (step ClickConfirm p) = true.
Proof.
  intros Hf Hd. simpl. rewrite Hd. unfold uploadDocument. rewrite Hf.
  repeat split; reflexivity.
Qed.

Lemma reader_onload_posts (q q' : page) (f : file) (id : nat)
    (header payload : string) :
  resume id q = Some (FileRead f, q') ->
  free_of "," header = true -> free_of "," payload = true ->
  fetched (step (ReaderSettled id (Some (header ++ "," ++ payload)%string)) q)
  = fetched q ++ [POST UPLOAD_ENDPOINT "application/json"
                    (VObj [("file", VStr payload);
                           ("filename", VStr (name f))])]
  /\ waiting (step (ReaderSettled id (Some (header ++ "," ++ payload)%string)) q)
     = waiting q' ++ [(fresh q, UploadReply f)].
Proof.
  intros Hr Hh Hp. simpl. rewrite Hr.
  apply resume_page in Hr as [rest ->].
  unfold reader_onload. rewrite (base64_of_data_url _ _ Hh Hp).
  split; reflexivity.
Qed.

Lemma upload_reply_success (q q' : page) (f : file) (id : nat)
    (data success message : value) :
  resume id q = Some (UploadReply f, q') ->
  get "success" data = Some success -> truthy success = true ->
  get "message" data = Some message ->
  let q1 := step (FetchSettled id (Resolved data)) q in
  uploadStatus_textContent q1
  = to_string (or_else message (VStr "Document uploaded successfully!"))
  /\ uploadStatus_className q1 = "text-success"
  /\ uploadProgress_width q1 = "100%"
  /\ chatMessages q1
     = chatMessages q ++ [Message "message bot"
                            (paragraphs_of (replace_markers (learned (name f))))].
Proof.
  intros Hr Hs Ht Hm. simpl. rewrite Hr.
  apply resume_page in Hr as [rest ->]. simpl.
  unfold upload_then, reading. rewrite Hs, Ht, Hm. simpl.
  repeat split; reflexivity.
Qed.

Lemma upload_reply_failure (q q' : page) (f : file) (id : nat)
    (data success error : value) :
  resume id q = Some (UploadReply f, q') ->
  get "success" data = Some success -> truthy success = false ->
  get "error" data = Some error ->
  let q1 := step (FetchSettled id (Resolved data)) q in
  uploadStatus_textContent q1
  = ("Error: " ++ to_string (or_else error (VStr "Unknown error")))%string
  /\ uploadStatus_className q1 = "text-error"
  /\ confirmUploadBtn_disabled q1 = false
  /\ chatMessages q1 = chatMessages q.
Proof.
  intros Hr Hs Ht He. simpl. rewrite Hr.
  apply resume_page in Hr as [rest ->]. simpl.
  unfold upload_then, reading. rewrite Hs, Ht, He. simpl.
  repeat split; reflexivity.
Qed.

Lemma or_else_text (m fallback : string) :
  m <> "" -> to_string (or_else (VStr m) (VStr fallback)) = m.
Proof. destruct m; [congruence|reflexivity]. Qed.

(** C7. A click on the enabled confirm button with a file selected
    starts reading it; when the reader hands over the data URL
    [header,payload], the client sends one POST to the upload endpoint
    whose JSON body is the object with exactly the two properties [file]
    (the payload: what follows the comma) and [filename] (the name of the
    file).  On a reply with a truthy [success] the status line shows the
    reply's [message] (the text "Document uploaded successfully!" when
    that is empty or missing); otherwise it shows "Error: " followed by
    the reply's [error] (or by "Unknown error"). *)
Theorem upload_exchange (p : page) (f : file) :
  fileUpload_files p = Some f -> confirmUploadBtn_disabled p = false ->
  (waiting (step ClickConfirm p) = waiting p ++ [(fresh p, FileRead f)]
   /\ fetched (step ClickConfirm p) = fetched p)
  /\ (forall (q q' : page) (id : nat) (header payload : string),
        resume id q = Some (FileRead f, q') ->
        free_of "," header = true -> free_of "," payload = true ->
        fetched (step (ReaderSettled id
                         (Some (header ++ "," ++ payload)%string)) q)
        = fetched q ++ [POST UPLOAD_ENDPOINT "application/json"
                          (VObj [("file", VStr payload);
                                 ("filename", VStr (name f))])]
        /\ waiting (step (ReaderSettled id
                            (Some (header ++ "," ++ payload)%string)) q)
           = waiting q' ++ [(fresh q, UploadReply f)])
  /\ (forall (q q' : page) (id : nat) (data success : value),
        resume id q = Some (UploadReply f, q') ->
        get "success" data = Some success ->
        (truthy success = true ->
         forall message, get "message" data = Some message ->
         uploadStatus_textContent (step (FetchSettled id (Resolved data)) q)
         = to_string (or_else message (VStr "Document uploaded successfully!"))
         /\ (forall m, message = VStr m -> m <> "" ->
             uploadStatus_textContent
               (step (FetchSettled id (Resolved data)) q) = m))
        /\ (truthy success = false ->
            forall error, get "error" data = Some error ->
            uploadStatus_textContent (step (FetchSettled id (Resolved data)) q)
            = ("Error: "
               ++ to_string (or_else error (VStr "Unknown error")))%string
            /\ (forall e, error = VStr e -> e <> "" ->
                uploadStatus_textContent
                  (step (FetchSettled id (Resolved data)) q)
                = ("Error: " ++ e)%string))).
Proof.
  intros Hf Hd. split; [|split].
  - destruct (uploadDocument_reads p f Hf Hd) as (H1 & H2 & _). auto.
  - intros q q' id header payload Hr Hh Hp.
    now apply reader_onload_posts.
  - intros q q' id data success Hr Hs. split.
    + intros Ht message Hm.
      destruct (upload_reply_success q q' f id data success message
                  Hr Hs Ht Hm) as (H1 & _).
      split; [exact H1|]. intros m -> Hne. rewrite H1.
      now apply or_else_text.
    + intros Ht error He.
      destruct (upload_reply_failure q q' f id data success error
                  Hr Hs Ht He) as (H1 & _).
      split; [exact H1|]. intros e -> Hne. rewrite H1.
      now rewrite or_else_text.
Qed.

Lemma upload_exchange_witness :
  let f := {| name := "Returns Policy.PDF" |} in
  let p := run [ClickUpload; ChangeFile (Some f)]
               (DOMContentLoaded "0.4fzyo82mvyr" blank) in
  let q := step ClickConfirm p in
  let r := step (ReaderSettled 1
                   (Some ("data:application/pdf;base64" ++ ","
                          ++ "JVBERi0xLjQK")%string)) q in
  let reply := VObj [("success", VBool true);
                     ("message", VStr "Document processed.")] in
  waiting q = waiting p ++ [(1, FileRead f)]
  /\ fetched r
     = fetched q ++ [POST UPLOAD_ENDPOINT "application/json"
                       (VObj [("file", VStr "JVBERi0xLjQK");
                              ("filename", VStr "Returns Policy.PDF")])]
  /\ uploadStatus_textContent (step (FetchSettled 2 (Resolved reply)) r)
     = "Document processed.".
Proof.
  intros f p q r reply.
  destruct (upload_exchange p f eq_refl eq_refl) as [[H1 _] [H2 H3]].
  split; [exact H1|]. split.
  - destruct (H2 q _ 1 "data:application/pdf;base64" "JVBERi0xLjQK"
                eq_refl eq_refl eq_refl) as [H _].
    exact H.
  - destruct (H3 r _ 2 reply (VBool true) eq_refl eq_refl) as [H _].
    destruct (H eq_refl (VStr "Document processed.") eq_refl) as [_ H'].
    exact (H' "Document processed." eq_refl ltac:(discriminate)).
Defined.

(** ** Health *)

Lemma strict_ne_string_false (status : value) (text : string) :
  strict_ne_string status text = false <-> status = VStr text.
Proof.
  destruct status; simpl; split; intros H; try discriminate.
  - apply negb_false_iff, String.eqb_eq in H. now subst.
  - inversion H; subst. now rewrite String.eqb_refl.
Qed.

Lemma health_warning_paragraphs :
  paragraphs_of (replace_markers health_warning) = [health_warning].
Proof. vm_compute. reflexivity. Qed.

(** C8. Loading the page issues one GET to the health endpoint.  When
    the reply to it has a [status] other than the string "healthy", the
    warning is appended to the chat as a bot message; when the status is
    exactly "healthy", the chat is left as it is. *)
Theorem health_check (random36 : string) (html : page) :
  (fetched (DOMContentLoaded random36 html) = [GET HEALTH_ENDPOINT]
   /\ waiting (DOMContentLoaded random36 html) = [(0, HealthReply)]
   /\ chatMessages (DOMContentLoaded random36 html) = chatMessages html)
  /\ (forall (p p' : page) (id : nat) (data status : value),
        resume id p = Some (HealthReply, p') ->
        get "status" data = Some status ->
        (status <> VStr "healthy" ->
         chatMessages (step (FetchSettled id (Resolved data)) p)
         = chatMessages p ++ [Message "message bot" [health_warning]])
        /\ (status = VStr "healthy" ->
            chatMessages (step (FetchSettled id (Resolved data)) p)
            = chatMessages p)).
Proof.
  split; [repeat split; reflexivity|].
  intros p p' id data status Hr Hs. simpl. rewrite Hr.
  apply resume_page in Hr as [rest ->]. simpl.
  unfold health_then, reading. rewrite Hs. split.
  - intros Hne.
    destruct (strict_ne_string status "healthy") eqn:E.
    + simpl.
      change (replace_markers _) with (replace_markers health_warning).
      now rewrite health_warning_paragraphs.
    + apply strict_ne_string_false in E. contradiction.
  - intros ->. reflexivity.
Qed.

Lemma health_check_witness :
  let p := DOMContentLoaded "0.4fzyo82mvyr" blank in
  fetched p = [GET HEALTH_ENDPOINT]
  /\ chatMessages
       (step (FetchSettled 0
                (Resolved (VObj [("status", VStr "degraded")]))) p)
     = [Message "message bot" [health_warning]]
  /\ chatMessages
       (step (FetchSettled 0
                (Resolved (VObj [("status", VStr "healthy")]))) p)
     = [].
Proof.
  intros p.
  destruct (health_check "0.4fzyo82mvyr" blank) as [[H1 _] H2].
  split; [exact H1|]. split.
  - destruct (H2 p _ 0 (VObj [("status", VStr "degraded")])
                (VStr "degraded") eq_refl eq_refl) as [H _].
    exact (H ltac:(discriminate)).
  - destruct (H2 p _ 0 (VObj [("status", VStr "healthy")])
                (VStr "healthy") eq_refl eq_refl) as [_ H].
    exact (H eq_refl).
Defined.

(** ** The session identifier *)

(** The handlers chained on a request leave the identifier and the log
    of requests alone. *)
Lemma same_wire_refl (p : page) : same_wire p p.
Proof. split; reflexivity. Qed.

Lemma same_wire_trans (p q r : page) :
  same_wire p q -> same_wire q r -> same_wire p r.
Proof. intros [H1 H2] [H3 H4]. split; congruence. Qed.

Lemma addMessageToChat_wire (sender : string) (content : value) (p : page) :
  same_wire p (settled (addMessageToChat sender content p)).
Proof. destruct content; split; reflexivity. Qed.

Lemma removeChild_wire (id : nat) (p : page) :
  same_wire p (settled (removeChild id p)).
Proof.
  unfold removeChild. destruct (existsb _ _); split; reflexivity.
Qed.

Lemma bind_wire (p : page) (c : completion) (k : page -> completion) :
  same_wire p (settled c) ->
  (forall q, same_wire p q -> same_wire p (settled (k q))) ->
  same_wire p (settled (c >>= k)).
Proof. intros Hc Hk. destruct c as [q|q]; simpl in *; auto. Qed.

Lemma reading_wire (key : string) (data : value) (p q : page)
    (use : value -> completion) :
  same_wire p q ->
  (forall v, same_wire p (settled (use v))) ->
  same_wire p (settled (reading key data q use)).
Proof. intros Hq Hu. unfold reading. destruct (get key data); auto. Qed.

Lemma catching_wire (p : page) (c : completion) (h : page -> completion) :
  same_wire p (settled c) ->
  (forall q, same_wire p q -> same_wire p (settled (h q))) ->
  same_wire p (catching c h).
Proof. intros Hc Hh. destruct c as [q|q]; simpl in *; auto. Qed.

Lemma chat_catch_wire (p q : page) (ind : nat) :
  same_wire p q -> same_wire p (settled (chat_catch ind q)).
Proof.
  intros Hq. unfold chat_catch.
  apply bind_wire.
  - eapply same_wire_trans; [exact Hq|apply removeChild_wire].
  - intros q1 H1. apply bind_wire.
    + eapply same_wire_trans; [exact H1|apply addMessageToChat_wire].
    + intros q2 [H2 H3]. split; simpl; assumption.
Qed.

Lemma chat_then_wire (p q : page) (ind : nat) (data : value) :
  same_wire p q -> same_wire p (settled (chat_then ind data q)).
Proof.
  intros Hq. unfold chat_then.
  apply bind_wire.
  - eapply same_wire_trans; [exact Hq|apply removeChild_wire].
  - intros q1 H1. apply reading_wire; [exact H1|]. intros success.
    destruct (truthy success).
    + apply reading_wire; [exact H1|]. intros response.
      eapply same_wire_trans; [exact H1|apply addMessageToChat_wire].
    + apply reading_wire; [exact H1|]. intros error.
      eapply same_wire_trans; [exact H1|apply addMessageToChat_wire].
Qed.

Lemma upload_catch_wire (p q : page) :
  same_wire p q -> same_wire p (settled (upload_catch q)).
Proof. intros [H1 H2]. split; simpl; assumption. Qed.

Lemma upload_then_wire (p q : page) (f : file) (data : value) :
  same_wire p q -> same_wire p (settled (upload_then f data q)).
Proof.
  intros Hq. unfold upload_then.
  apply reading_wire; [exact Hq|]. intros success.
  destruct (truthy success).
  - apply reading_wire; [exact Hq|]. intros message.
    apply bind_wire.
    + eapply same_wire_trans; [|apply addMessageToChat_wire].
      destruct Hq as [H1 H2]. split; simpl; assumption.
    + intros q2 [H2 H3]. split; simpl; assumption.
  - apply reading_wire; [exact Hq|]. intros error.
    destruct Hq as [H1 H2]. split; simpl; assumption.
Qed.

Lemma health_catch_wire (p q : page) :
  same_wire p q -> same_wire p (settled (health_catch q)).
Proof. intros [H1 H2]. split; simpl; assumption. Qed.

Lemma health_then_wire (p q : page) (data : value) :
  same_wire p q -> same_wire p (settled (health_then data q)).
Proof.
  intros Hq. unfold health_then.
  assert (H1 : same_wire p (console_write "Health status:" q))
    by (destruct Hq; split; simpl; assumption).
  apply reading_wire; [exact H1|]. intros status.
  destruct (strict_ne_string status "healthy"); [|exact H1].
  eapply same_wire_trans; [exact H1|apply addMessageToChat_wire].
Qed.

Lemma on_fetch_wire (k : continuation) (o : outcome) (p : page) :
  same_wire p (on_fetch k o p).
Proof.
  destruct k, o; simpl; try apply same_wire_refl.
  - apply chat_catch_wire, same_wire_refl.
  - apply catching_wire.
    + apply chat_then_wire, same_wire_refl.
    + intros q Hq. now apply chat_catch_wire.
  - apply upload_catch_wire, same_wire_refl.
  - apply catching_wire.
    + apply upload_then_wire, same_wire_refl.
    + intros q Hq. now apply upload_catch_wire.
  - apply health_catch_wire, same_wire_refl.
  - apply catching_wire.
    + apply health_then_wire, same_wire_refl.
    + intros q Hq. now apply health_catch_wire.
Qed.

Lemma endpoints_differ : UPLOAD_ENDPOINT <> CHAT_ENDPOINT.
Proof.
  intros H. apply String.eqb_eq in H. vm_compute in H. discriminate.
Qed.

Lemma sendMessage_wire (p : page) :
  sessionId (sendMessage p) = sessionId p
  /\ (fetched (sendMessage p) = fetched p
      \/ exists r, fetched (sendMessage p) = fetched p ++ [r]
                   /\ carries_session (sessionId p) r).
Proof.
  destruct (trim (chatInput_value p)) as [|c m] eqn:Hm.
  - rewrite (sendMessage_blank_noop_aux p Hm). split; [|left]; reflexivity.
  - destruct (sendMessage_sends p (String c m) Hm ltac:(discriminate))
      as (H1 & _).
    split.
    + unfold sendMessage. rewrite Hm. reflexivity.
    + right. eexists. split; [exact H1|]. intros _. now eexists.
Qed.

(** One turn of the event loop keeps the identifier, and adds to the log
    at most one request, which carries the identifier if it is a chat
    request. *)
Lemma step_wire (e : event) (p : page) :
  sessionId (step e p) = sessionId p
  /\ (fetched (step e p) = fetched p
      \/ exists r, fetched (step e p) = fetched p ++ [r]
                   /\ carries_session (sessionId p) r).
Proof.
  destruct e; simpl.
  - split; [|left]; reflexivity.
  - unfold handleInputKeypress.
    destruct (String.eqb key "Enter" && negb shiftKey);
      [apply sendMessage_wire|split; [|left]; reflexivity].
  - apply sendMessage_wire.
  - split; [|left]; reflexivity.
  - split; [|left]; reflexivity.
  - unfold handleFileSelect. simpl. destruct f as [f|].
    + destruct (negb _); split; try left; reflexivity.
    + split; [|left]; reflexivity.
  - destruct (confirmUploadBtn_disabled p); [split; [|left]; reflexivity|].
    unfold uploadDocument. destruct (fileUpload_files p);
      split; try left; reflexivity.
  - destruct (resume id p) as [[k p']|] eqn:Hr;
      [|split; [|left]; reflexivity].
    apply resume_page in Hr as [rest ->].
    destruct k; try (split; [|left]; reflexivity).
    + destruct (on_fetch_wire (ChatReply typingIndicator) o
                  (set_waiting rest p)) as [H1 H2].
      split; [exact H1|left; exact H2].
    + destruct (on_fetch_wire (UploadReply f) o (set_waiting rest p))
        as [H1 H2].
      split; [exact H1|left; exact H2].
    + destruct (on_fetch_wire HealthReply o (set_waiting rest p)) as [H1 H2].
      split; [exact H1|left; exact H2].
  - destruct (resume id p) as [[k p']|] eqn:Hr;
      [|split; [|left]; reflexivity].
    apply resume_page in Hr as [rest ->].
    destruct k; try (split; [|left]; reflexivity).
    destruct result as [data_url|]; [|split; [|left]; reflexivity].
    split; [reflexivity|]. right. eexists. split; [reflexivity|].
    intros H. exfalso. exact (endpoints_differ H).
  - destruct (resume id p) as [[k p']|] eqn:Hr;
      [|split; [|left]; reflexivity].
    apply resume_page in Hr as [rest ->].
    destruct k; split; try left; reflexivity.
Qed.

Lemma run_wire (events : list event) (p : page) (sid : string) :
  sessionId p = sid -> Forall (carries_session sid) (fetched p) ->
  sessionId (run events p) = sid
  /\ Forall (carries_session sid) (fetched (run events p)).
Proof.
  revert p. induction events as [|e events IH]; intros p Hs Hf; simpl.
  - split; assumption.
  - destruct (step_wire e p) as [H1 H2]. apply IH; [congruence|].
    destruct H2 as [-> | (r & -> & Hr)]; [assumption|].
    apply Forall_app. split; [assumption|]. constructor; [|constructor].
    now rewrite <- Hs.
Qed.

Lemma forallb_take (P : ascii -> bool) (n : nat) (s : string) :
  forallb P (list_ascii_of_string s) = true ->
  forallb P (list_ascii_of_string (JsString.take n s)) = true.
Proof.
  revert s; induction n as [|n IH]; intros [|c s] H; simpl in *;
    try reflexivity.
  apply andb_prop in H as [Hc Hs]. now rewrite Hc, (IH s Hs).
Qed.

Lemma length_take (n : nat) (s : string) :
  String.length (JsString.take n s) <= n.
Proof.
  revert s; induction n as [|n IH]; intros [|c s]; simpl; try lia.
  specialize (IH s). lia.
Qed.

(** C10. The identifier is made once, when the page loads, as "session_"
    followed by the characters 2 to 14 of [Math.random().toString(36)]:
    at most thirteen base-36 digits when that text is "0." and base-36
    digits.  No event changes it, and every request to the chat endpoint
    made during the life of the page carries it as its [session_id]. *)
Theorem session_id_fixed (random36 : string) (html : page)
    (events : list event) :
  let loaded := DOMContentLoaded random36 html in
  sessionId loaded = ("session_" ++ substring 2 15 random36)%string
  /\ sessionId (run events loaded) = sessionId loaded
  /\ Forall (carries_session (sessionId loaded)) (fetched (run events loaded))
  /\ (forall digits,
        random36 = ("0." ++ digits)%string ->
        forallb is_base36 (list_ascii_of_string digits) = true ->
        exists t, sessionId (run events loaded) = ("session_" ++ t)%string
                  /\ forallb is_base36 (list_ascii_of_string t) = true
                  /\ String.length t <= 13).
Proof.
  intros loaded.
  assert (H0 : sessionId loaded = ("session_" ++ substring 2 15 random36)%string)
    by reflexivity.
  destruct (run_wire events loaded (sessionId loaded) eq_refl) as [H1 H2].
  { unfold loaded. simpl. constructor; [exact I|constructor]. }
  repeat split; try assumption.
  intros digits -> Hd. exists (JsString.take 13 digits).
  rewrite H1, H0. split; [reflexivity|]. split.
  - now apply forallb_take.
  - apply length_take.
Qed.

Lemma session_id_fixed_witness :
  let loaded := DOMContentLoaded "0.4fzyo82mvyr" blank in
  let events := [InputText "first" "20"; ClickSend;
                 FetchSettled 0 Rejected;
                 InputText "second" "20"; Keypress "Enter" false] in
  sessionId loaded = "session_4fzyo82mvyr"
  /\ Forall (carries_session "session_4fzyo82mvyr")
            (fetched (run events loaded))
  /\ exists t, sessionId (run events loaded) = ("session_" ++ t)%string
               /\ forallb is_base36 (list_ascii_of_string t) = true
               /\ String.length t <= 13.
Proof.
  intros loaded events.
  destruct (session_id_fixed "0.4fzyo82mvyr" blank events)
    as (H1 & _ & H3 & H4).
  split; [exact H1|]. split; [exact H3|].
  exact (H4 "4fzyo82mvyr" eq_refl eq_refl).
Defined.

End ClientFacts.

(** * Properties of the Vector Store contract *)
Module VectorStoreFacts.
Import VectorStore.
Local Open Scope list_scope.

(** ** Ranking and threshold *)

Section Ranking.

Variable similarity : vector -> vector -> Q.

Lemma tie_compare_antisym (a b : entry) :
  tie_compare b a = CompOpp (tie_compare a b).
Proof.
  unfold tie_compare.
  rewrite (Nat.compare_antisym (ingested a) (ingested b)).
  destruct (Nat.compare (ingested a) (ingested b)); simpl; try reflexivity.
  rewrite (String.compare_antisym (document_id b) (document_id a)).
  destruct (String.compare (document_id a) (document_id b)); simpl;
    try reflexivity.
  apply Nat.compare_antisym.
Qed.

Lemma rank_compare_antisym (a b : hit) :
  rank_compare b a = CompOpp (rank_compare a b).
Proof.
  unfold rank_compare.
  rewrite <- (Qcompare_antisym (score b) (score a)).
  destruct (Qcompare (score b) (score a)); simpl; try reflexivity.
  apply tie_compare_antisym.
Qed.

#[local] Instance ranks_before_total : Total ranks_before.
Proof.
  intros a b. unfold ranks_before. rewrite (rank_compare_antisym a b).
  destruct (rank_compare a b); simpl; [left|left|right]; discriminate.
Qed.

Lemma ranks_before_score (a b : hit) :
  ranks_before a b -> (score b <= score a)%Q.
Proof.
  unfold ranks_before, rank_compare. intros H.
  apply Qle_alt. destruct (Qcompare (score b) (score a)); congruence.
Qed.

#[local] Instance by_score_trans : Transitive by_score.
Proof. intros a b c Hab Hbc. unfold by_score in *. eapply Qle_trans; eauto. Qed.

Lemma HdRel_by_score (a : hit) (l : list hit) :
  HdRel ranks_before a l -> HdRel by_score a l.
Proof.
  intros H. destruct H; constructor. now apply ranks_before_score.
Qed.

Lemma Sorted_by_score (l : list hit) :
  Sorted ranks_before l -> Sorted by_score l.
Proof.
  induction 1; constructor; [assumption|now apply HdRel_by_score].
Qed.

Lemma In_firstn (n : nat) (l : list hit) (x : hit) :
  In x (firstn n l) -> In x l.
Proof.
  revert l. induction n as [|n IH]; intros [|a l]; simpl; try tauto.
  intros [->|H]; [now left|right; now apply IH].
Qed.

Lemma StronglySorted_firstn (n : nat) (l : list hit) :
  StronglySorted by_score l -> StronglySorted by_score (firstn n l).
Proof.
  revert l. induction n as [|n IH]; intros l H; [constructor|].
  destruct H as [|a l Hs Ha]; simpl; constructor.
  - now apply IH.
  - apply List.Forall_forall. intros x Hx.
    eapply List.Forall_forall in Ha; [exact Ha|]. eapply In_firstn; eauto.
Qed.

Lemma Forall_firstn (P : hit -> Prop) (n : nat) (l : list hit) :
  Forall P l -> Forall P (firstn n l).
Proof.
  intros H. apply List.Forall_forall. intros x Hx.
  eapply List.Forall_forall in H; [exact H|]. eapply In_firstn; eauto.
Qed.

Lemma query_sound (v : vector) (top_k : nat) (threshold : Q) (s : store) :
  let results := query similarity v top_k threshold s in
  Forall (fun h => (threshold <= score h)%Q) results
  /\ StronglySorted by_score results
  /\ length results <= top_k
  /\ Forall (fun h => In (found h) (visible s)
                      /\ score h = similarity v (embedding (body (found h))))
            results.
Proof.
  intros results. unfold results, query.
  set (scored := List.map (score_entry similarity v) (visible s)).
  set (kept := List.filter (fun h => Qle_bool threshold (score h)) scored).
  assert (Hperm : merge_sort ranks_before kept ≡ₚ kept)
    by apply merge_sort_Permutation.
  assert (Hkept : Forall (fun h => (threshold <= score h)%Q) kept).
  { apply List.Forall_forall. intros h Hh. apply List.filter_In in Hh as [_ Hh].
    now apply Qle_bool_iff. }
  assert (Hfrom : Forall (fun h => In (found h) (visible s)
                     /\ score h = similarity v (embedding (body (found h))))
                    kept).
  { apply List.Forall_forall. intros h Hh. apply List.filter_In in Hh as [Hh _].
    apply List.in_map_iff in Hh as (e & <- & He). split; [exact He|reflexivity]. }
  repeat split.
  - apply Forall_firstn. now rewrite Hperm.
  - apply StronglySorted_firstn, Sorted_StronglySorted; [apply _|].
    apply Sorted_by_score, Sorted_merge_sort. apply _.
  - apply firstn_le_length.
  - apply Forall_firstn. now rewrite Hperm.
Qed.

End Ranking.

(** C1. For every query, every hit that [query] returns has a score that
    meets or exceeds the threshold, and the hits come ordered by score,
    highest first (each hit scores no less than every later one); the
    hits are chunks a reader can see, scored by the similarity to the
    query vector, at most [top_k] of them.  [retrieve] returns what
    [query] returns for the embedded query text, so the same holds for
    it. *)
Theorem query_respects_threshold_and_order
    (similarity : vector -> vector -> Q) (embed : string -> option vector)
    (query_vector : vector) (query_text : string)
    (top_k : nat) (threshold : Q) (s : store) :
  let sound (results : list hit) :=
    Forall (fun h => (threshold <= score h)%Q) results
    /\ StronglySorted (fun a b => (score b <= score a)%Q) results
    /\ length results <= top_k in
  sound (query similarity query_vector top_k threshold s)
  /\ Forall (fun h => In (found h) (visible s)
                      /\ score h
                         = similarity query_vector (embedding (body (found h))))
            (query similarity query_vector top_k threshold s)
  /\ match retrieve similarity embed query_text top_k threshold s with
     | Some results => sound results
     | None => embed query_text = None
     end.
Proof.
  intros sound.
  destruct (query_sound similarity query_vector top_k threshold s)
    as (H1 & H2 & H3 & H4).
  split; [repeat split; assumption|]. split; [assumption|].
  unfold retrieve. destruct (embed query_text) as [v|]; [|reflexivity].
  destruct (query_sound similarity v top_k threshold s) as (G1 & G2 & G3 & _).
  repeat split; assumption.
Qed.

Example query_example :
  let refunds := {| ordinal := 0;
                    text := "Refunds are processed within 5 business days.";
                    embedding := [1; 0]%Q |} in
  let hours := {| ordinal := 1; text := "We are open 9 to 5.";
                  embedding := [0; 1]%Q |} in
  let both := {| ordinal := 0; text := "Refunds and opening hours.";
                 embedding := [3 # 5; 4 # 5]%Q |} in
  let s := upsert_chunks "faq" [refunds; hours] 10
             (upsert_chunks "intro" [both] 5 empty_store) in
  List.map (fun h => (text (body (found h)), Qred (score h)))
           (query dot [1; 0]%Q 5 (1 # 2) s)
  = [("Refunds are processed within 5 business days.", 1%Q);
     ("Refunds and opening hours.", (3 # 5)%Q)]
  /\ query dot [0; 0]%Q 5 (1 # 2) s = [].
Proof. vm_compute. split; reflexivity. Qed.

(** ** The versioned write *)

Lemma read_filter (doc : string) (s : store) :
  read doc s
  = List.map body
      (List.filter (fun e => is_live s e && String.eqb (document_id e) doc)
                   (records s)).
Proof.
  unfold read, visible. f_equal.
  induction (records s) as [|e l IH]; simpl; [reflexivity|].
  destruct (is_live s e); simpl; [|exact IH].
  destruct (String.eqb (document_id e) doc); now rewrite IH.
Qed.

Lemma le_list_max (x : nat) (l : list nat) : In x l -> x <= list_max l.
Proof.
  intros H. pose proof (proj1 (list_max_le l (list_max l)) (le_n _)) as Hall.
  eapply List.Forall_forall in Hall; eauto.
Qed.

Lemma record_tag_below (s : store) (e : entry) :
  In e (records s) -> version_tag e < next_tag s.
Proof.
  intros H. unfold next_tag.
  assert (version_tag e <= list_max (List.map version_tag (records s)))
    by (apply le_list_max, List.in_map; exact H).
  lia.
Qed.

Lemma live_tag_below (s : store) (doc : string) (t : nat) :
  live s !! doc = Some t -> t < next_tag s.
Proof.
  intros H. unfold next_tag.
  assert (t <= list_max (List.map snd (map_to_list (live s)))).
  { apply le_list_max. apply List.in_map_iff. exists (doc, t). split; [reflexivity|].
    apply list_elem_of_In, elem_of_map_to_list. exact H. }
  lia.
Qed.

(** Before the flip a reader sees what it saw before the write began. *)
Lemma read_written (s : store) (doc other : string) (now : nat)
    (cs : list chunk) :
  read other (written s (List.map (new_entry doc (next_tag s) now) cs))
  = read other s.
Proof.
  rewrite !read_filter. unfold written. simpl records.
  rewrite List.filter_app, List.map_app.
  replace (List.filter _ (List.map (new_entry doc (next_tag s) now) cs))
    with (@nil entry); [now rewrite app_nil_r|].
  induction cs as [|c cs IH]; simpl; [reflexivity|].
  unfold is_live at 1. simpl.
  rewrite bool_decide_eq_false_2; [exact IH|].
  intros H. apply live_tag_below in H. lia.
Qed.

Lemma filter_none {A : Type} (f : A -> bool) (l : list A) :
  (forall x, In x l -> f x = false) -> List.filter f l = [].
Proof.
  induction l as [|a l IH]; simpl; intros H; [reflexivity|].
  rewrite (H a (or_introl eq_refl)). apply IH. intros x Hx. apply H. now right.
Qed.

Lemma filter_all {A : Type} (f : A -> bool) (l : list A) :
  (forall x, In x l -> f x = true) -> List.filter f l = l.
Proof.
  induction l as [|a l IH]; simpl; intros H; [reflexivity|].
  rewrite (H a (or_introl eq_refl)). f_equal. apply IH.
  intros x Hx. apply H. now right.
Qed.

Lemma map_body_new (doc : string) (tag now : nat) (cs : list chunk) :
  List.map body (List.map (new_entry doc tag now) cs) = cs.
Proof. induction cs as [|c cs IH]; simpl; [reflexivity|now rewrite IH]. Qed.

(** After the flip a reader of the document sees the new chunk set, all
    of it and nothing else. *)
Lemma read_flipped_same (s : store) (doc : string) (now : nat)
    (cs : list chunk) :
  read doc (flipped s doc (List.map (new_entry doc (next_tag s) now) cs)) = cs.
Proof.
  rewrite read_filter. unfold flipped. simpl records.
  rewrite List.filter_app, List.map_app.
  rewrite filter_none, filter_all.
  - simpl. apply map_body_new.
  - intros e He. apply List.in_map_iff in He as (c & <- & _).
    unfold is_live. simpl. rewrite lookup_insert_eq.
    rewrite bool_decide_eq_true_2 by reflexivity.
    simpl. apply String.eqb_refl.
  - intros e He. unfold is_live. simpl.
    destruct (String.eqb (document_id e) doc) eqn:E;
      [|now rewrite andb_false_r].
    apply String.eqb_eq in E. rewrite E, lookup_insert_eq.
    rewrite bool_decide_eq_false_2; [reflexivity|].
    intros H. inversion H as [H']. apply record_tag_below in He. lia.
Qed.

Lemma read_flipped_other (s : store) (doc other : string) (now : nat)
    (cs : list chunk) :
  other <> doc ->
  read other (flipped s doc (List.map (new_entry doc (next_tag s) now) cs))
  = read other s.
Proof.
  intros Hne. rewrite !read_filter. unfold flipped. simpl records.
  rewrite List.filter_app, List.map_app.
  rewrite (filter_none _ (List.map _ cs)).
  - rewrite app_nil_r. f_equal. apply List.filter_ext_in. intros e He.
    destruct (String.eqb (document_id e) other) eqn:E;
      [|now rewrite !andb_false_r].
    apply String.eqb_eq in E. unfold is_live. simpl.
    rewrite lookup_insert_ne by congruence. reflexivity.
  - intros e He. apply List.in_map_iff in He as (c & <- & _). simpl.
    destruct (String.eqb doc other) eqn:E; [|now rewrite andb_false_r].
    apply String.eqb_eq in E. congruence.
Qed.

Lemma filter_absorb {A : Type} (f g : A -> bool) (l : list A) :
  (forall x, In x l -> f x = true -> g x = true) ->
  List.filter f (List.filter g l) = List.filter f l.
Proof.
  induction l as [|a l IH]; simpl; intros H; [reflexivity|].
  assert (IH' : List.filter f (List.filter g l) = List.filter f l)
    by (apply IH; intros x Hx; apply H; now right).
  destruct (g a) eqn:Hg; simpl.
  - now rewrite IH'.
  - destruct (f a) eqn:Hf; [|exact IH'].
    rewrite (H a (or_introl eq_refl) Hf) in Hg. discriminate.
Qed.

(** Purging the other versions of a document takes away nothing a reader
    sees, once the pointer is on the version kept. *)
Lemma read_purged (st : store) (doc other : string) (keep : nat) :
  live st !! doc = Some keep ->
  read other (apply_step (Purge doc keep) st) = read other st.
Proof.
  intros Hlive. rewrite !read_filter. simpl records. f_equal.
  rewrite (List.filter_ext
             (fun e => is_live (apply_step (Purge doc keep) st) e
                       && String.eqb (document_id e) other)
             (fun e => is_live st e && String.eqb (document_id e) other))
    by reflexivity.
  apply filter_absorb. intros e _ He.
  apply andb_prop in He as [He _].
  destruct (String.eqb (document_id e) doc) eqn:E; [|reflexivity]. simpl.
  apply String.eqb_eq in E. unfold is_live in He.
  apply bool_decide_eq_true in He. rewrite E, Hlive in He.
  inversion He. apply Nat.eqb_refl.
Qed.

Lemma stored_purged (s : store) (doc : string) (now : nat) (cs : list chunk) :
  stored doc
    (apply_step (Purge doc (next_tag s))
       (flipped s doc (List.map (new_entry doc (next_tag s) now) cs)))
  = List.map (new_entry doc (next_tag s) now) cs.
Proof.
  unfold stored. simpl records.
  rewrite List.filter_app, List.filter_app.
  rewrite (filter_none _ (List.filter _ (records s))).
  - simpl. rewrite !filter_all; [reflexivity| |].
    + intros e He. apply List.in_map_iff in He as (c & <- & _). simpl.
      rewrite String.eqb_refl, Nat.eqb_refl. reflexivity.
    + intros e He. apply List.filter_In in He as [He _].
      apply List.in_map_iff in He as (c & <- & _). simpl.
      apply String.eqb_refl.
  - intros e He. apply List.filter_In in He as [He Hg].
    destruct (String.eqb (document_id e) doc) eqn:E; [|reflexivity].
    simpl in Hg. apply Nat.eqb_eq in Hg. apply record_tag_below in He. lia.
Qed.

Lemma written_nil (s : store) : written s [] = s.
Proof. destruct s as [rs lv]. unfold written. simpl. now rewrite app_nil_r. Qed.

Lemma written_snoc (s : store) (es : list entry) (e : entry) :
  apply_step (Write e) (written s es) = written s (es ++ [e]).
Proof. unfold written. simpl. now rewrite app_assoc. Qed.

(** The states of a write, by induction on the chunks still to write. *)
Lemma states_upsert (P : store -> Prop) (s : store) (doc : string)
    (now : nat) (cs : list chunk) :
  let mk := new_entry doc (next_tag s) now in
  (forall pre, P (written s (List.map mk pre))) ->
  P (flipped s doc (List.map mk cs)) ->
  P (apply_step (Purge doc (next_tag s)) (flipped s doc (List.map mk cs))) ->
  forall pre post, pre ++ post = cs ->
  Forall P
    (states (List.map (fun c => Write (mk c)) post
             ++ [Flip doc (next_tag s); Purge doc (next_tag s)])
            (written s (List.map mk pre))).
Proof.
  intros mk Hw Hf Hp pre post. revert pre.
  induction post as [|c post IH]; intros pre Hcs.
  - rewrite app_nil_r in Hcs. subst pre. simpl.
    repeat constructor; [apply Hw|exact Hf|exact Hp].
  - cbn [List.map app states]. constructor; [apply Hw|].
    rewrite written_snoc.
    change [mk c] with (List.map mk [c]). rewrite <- List.map_app.
    apply IH. now rewrite <- app_assoc.
Qed.

Lemma fold_writes_from (s : store) (done es : list entry)
    (rest : list write_step) :
  fold_left (fun st w => apply_step w st) (List.map Write es ++ rest)
            (written s done)
  = fold_left (fun st w => apply_step w st) rest (written s (done ++ es)).
Proof.
  revert done. induction es as [|e es IH]; intros done.
  - now rewrite app_nil_r.
  - cbn [List.map app fold_left]. rewrite written_snoc, IH.
    now rewrite <- app_assoc.
Qed.

Lemma fold_writes (s : store) (es : list entry) (rest : list write_step) :
  fold_left (fun st w => apply_step w st) (List.map Write es ++ rest) s
  = fold_left (fun st w => apply_step w st) rest (written s es).
Proof.
  rewrite <- (written_nil s) at 1. apply (fold_writes_from s [] es rest).
Qed.

Lemma upsert_chunks_final (s : store) (doc : string) (now : nat)
    (cs : list chunk) :
  upsert_chunks doc cs now s
  = apply_step (Purge doc (next_tag s))
      (flipped s doc (List.map (new_entry doc (next_tag s) now) cs)).
Proof.
  unfold upsert_chunks, upsert_steps.
  rewrite <- (List.map_map (new_entry doc (next_tag s) now) Write).
  rewrite fold_writes. reflexivity.
Qed.

Lemma read_upsert (s : store) (doc : string) (now : nat) (cs : list chunk) :
  read doc (upsert_chunks doc cs now s) = cs
  /\ List.map body (stored doc (upsert_chunks doc cs now s)) = cs
  /\ forall other, other <> doc ->
       read other (upsert_chunks doc cs now s) = read other s.
Proof.
  rewrite upsert_chunks_final. repeat split.
  - rewrite read_purged by (simpl; apply lookup_insert_eq).
    apply read_flipped_same.
  - rewrite stored_purged. apply map_body_new.
  - intros other Hne.
    rewrite read_purged by (simpl; apply lookup_insert_eq).
    now apply read_flipped_other.
Qed.

Lemma last_state (steps : list write_step) (s d : store) :
  List.last (states steps s) d
  = fold_left (fun st w => apply_step w st) steps s.
Proof.
  revert s d. induction steps as [|w steps IH]; intros s d; [reflexivity|].
  cbn [states fold_left]. rewrite <- (IH (apply_step w s) d).
  destruct (states steps (apply_step w s)) eqn:E; [|reflexivity].
  destruct steps; discriminate.
Qed.

Lemma read_reingest (doc : string) (inputs : list (list chunk * nat))
    (cs : list chunk) (now : nat) (s : store) :
  read doc (reingest doc (inputs ++ [(cs, now)]) s) = cs
  /\ List.map body (stored doc (reingest doc (inputs ++ [(cs, now)]) s)) = cs.
Proof.
  revert s. induction inputs as [|[cs' now'] inputs IH]; intros s; simpl.
  - destruct (read_upsert s doc now cs) as (H1 & H2 & _). now split.
  - apply IH.
Qed.

Example upsert_example :
  let old := {| ordinal := 0; text := "old"; embedding := [1]%Q |} in
  let new1 := {| ordinal := 0; text := "new 1"; embedding := [1]%Q |} in
  let new2 := {| ordinal := 1; text := "new 2"; embedding := [1]%Q |} in
  let s := upsert_chunks "faq" [old] 1 empty_store in
  List.map (read "faq") (states (upsert_steps "faq" [new1; new2] 2 s) s)
  = [[old]; [old]; [old]; [new1; new2]; [new1; new2]].
Proof. vm_compute. reflexivity. Qed.

(** C2. [upsert_chunks] replaces the chunk set of a document as a whole:
    in every state the store goes through during the write, a reader of
    the document sees either the chunk set from before or the new one,
    never a mix, and readers of other documents see no change; when the
    write is done the reader sees the new chunks and the store holds for
    the document those records and no others.  After any number of
    re-ingestions the document has exactly one chunk set, the one of the
    latest input. *)
Theorem upsert_replaces_whole_chunk_set (doc : string) (chunks : list chunk)
    (now : nat) (s : store) :
  Forall (untorn doc chunks s) (states (upsert_steps doc chunks now s) s)
  /\ List.last (states (upsert_steps doc chunks now s) s) s
     = upsert_chunks doc chunks now s
  /\ read doc (upsert_chunks doc chunks now s) = chunks
  /\ List.map body (stored doc (upsert_chunks doc chunks now s)) = chunks
  /\ (forall earlier : list (list chunk * nat),
        read doc (reingest doc (earlier ++ [(chunks, now)]) s) = chunks
        /\ List.map body
             (stored doc (reingest doc (earlier ++ [(chunks, now)]) s))
           = chunks).
Proof.
  split; [|split; [|split; [|split]]].
  - rewrite <- (written_nil s) at 3.
    change (@nil entry)
      with (List.map (new_entry doc (next_tag s) now) (@nil chunk)).
    apply (states_upsert (untorn doc chunks s) s doc now chunks).
    + intros pre. split.
      * left. apply read_written.
      * intros other _. apply read_written.
    + split.
      * right. apply read_flipped_same.
      * intros other Hne. now apply read_flipped_other.
    + split.
      * right. rewrite read_purged by (simpl; apply lookup_insert_eq).
        apply read_flipped_same.
      * intros other Hne.
        rewrite read_purged by (simpl; apply lookup_insert_eq).
        now apply read_flipped_other.
    + reflexivity.
  - apply last_state.
  - apply read_upsert.
  - apply read_upsert.
  - intros earlier. apply read_reingest.
Qed.

End VectorStoreFacts.

(** * What the script keeps true, and its edges *)
Module ReachFacts.
Import JsString Citation CitationFacts Client ClientFacts Reach.
Local Open Scope list_scope.

(** ** The rewriting of markers leaves none behind *)

Lemma strip_prefix_inv (p s r : string) :
  strip_prefix p s = Some r -> s = (p ++ r)%string.
Proof.
  revert s; induction p as [|a p IH]; intros s H; simpl in H.
  - now inversion H.
  - destruct s as [|b s]; [discriminate|].
    destruct (Ascii.eqb a b) eqn:E; [|discriminate].
    apply Ascii.eqb_eq in E. subst b. rewrite append_cons. f_equal.
    now apply IH.
Qed.

Lemma span_digits_inv (s d r : string) :
  span_digits s = (d, r) ->
  s = (d ++ r)%string /\ forallb is_digit (list_ascii_of_string d) = true.
Proof.
  revert d r; induction s as [|c s IH]; intros d r H; simpl in H.
  - inversion H; subst. now split.
  - destruct (is_digit c) eqn:Hc.
    + destruct (span_digits s) as [d' r'] eqn:E. inversion H; subst.
      destruct (IH d' r eq_refl) as [-> Hd]. split.
      * now rewrite append_cons.
      * simpl. now rewrite Hc, Hd.
    + inversion H; subst. now split.
Qed.

(** A match at the head is the literal marker. *)
Lemma match_marker_inv (u d r : string) :
  match_marker u = Some (d, r) ->
  u = ("[Document " ++ d ++ "]" ++ r)%string
  /\ d <> "" /\ forallb is_digit (list_ascii_of_string d) = true.
Proof.
  unfold match_marker. intros H.
  destruct (strip_prefix "[Document " u) as [after|] eqn:Hp; [|discriminate].
  destruct (span_digits after) as [d0 q] eqn:Hd.
  destruct d0 as [|d1 d0]; [discriminate|].
  destruct q as [|c q]; [discriminate|].
  destruct (Ascii.eqb c "]") eqn:Hc; [|discriminate].
  apply Ascii.eqb_eq in Hc. inversion H; subst.
  apply strip_prefix_inv in Hp. apply span_digits_inv in Hd as [-> Hd].
  split; [exact Hp|]. split; [discriminate|exact Hd].
Qed.

Lemma free_of_app (c : ascii) (a b : string) :
  free_of c (a ++ b) = free_of c a && free_of c b.
Proof.
  unfold free_of. induction a as [|x a IH]; [reflexivity|].
  rewrite append_cons. simpl. now rewrite IH, andb_assoc.
Qed.

Lemma digits_free_of (c : ascii) (d : string) :
  is_digit c = false ->
  forallb is_digit (list_ascii_of_string d) = true -> free_of c d = true.
Proof.
  intros Hc. unfold free_of. induction d as [|x d IH]; simpl; [reflexivity|].
  intros H. apply andb_prop in H as [Hx Hd]. rewrite (IH Hd), andb_true_r.
  destruct (Ascii.eqb x c) eqn:E; [|reflexivity].
  apply Ascii.eqb_eq in E. congruence.
Qed.

Lemma source_span_free_of (c : ascii) (d : string) :
  free_of c "<span class=" = true -> free_of c dquote = true ->
  free_of c "source" = true -> free_of c ">Source " = true ->
  free_of c "</span>" = true -> free_of c d = true ->
  free_of c (source_span d) = true.
Proof.
  intros H1 H2 H3 H4 H5 H6. unfold source_span.
  rewrite !free_of_app, H1, H2, H3, H4, H5, H6. reflexivity.
Qed.

Lemma has_marker_cons (c : ascii) (s : string) :
  has_marker (String c s)
  = match match_marker (String c s) with
    | Some _ => true
    | None => has_marker s
    end.
Proof. reflexivity. Qed.

Lemma match_marker_other_head (c : ascii) (s : string) :
  Ascii.eqb c "[" = false -> match_marker (String c s) = None.
Proof.
  intros H. unfold match_marker.
  change (strip_prefix "[Document " (String c s))
    with (if Ascii.eqb "[" c then strip_prefix "Document " s else None).
  rewrite Ascii.eqb_sym, H. reflexivity.
Qed.

(** No match begins inside a text that has no opening bracket. *)
Lemma has_marker_app_free (x t : string) :
  free_of "[" x = true -> has_marker (x ++ t) = has_marker t.
Proof.
  unfold free_of. induction x as [|c x IH]; intros H; [reflexivity|].
  simpl in H. apply andb_prop in H as [Hc Hx].
  rewrite append_cons, has_marker_cons.
  rewrite match_marker_other_head; [now apply IH|].
  now apply negb_true_iff in Hc.
Qed.

Lemma source_span_head (d : string) :
  exists t, source_span d = String "<" t.
Proof. eexists. reflexivity. Qed.

(** The rewritten text begins like the text itself, as far as it begins
    with characters that open neither a marker nor a label. *)
Lemma replace_markers_reflects (w s r : string) :
  free_of "[" w = true -> free_of "<" w = true ->
  replace_markers s = (w ++ r)%string ->
  exists r0, s = (w ++ r0)%string.
Proof.
  unfold free_of. revert s. induction w as [|a w IH]; intros s H1 H2 H.
  - now exists s.
  - simpl in H1, H2.
    apply andb_prop in H1 as [Ha1 Hw1]. apply andb_prop in H2 as [Ha2 Hw2].
    rewrite append_cons in H.
    destruct s as [|b s].
    + rewrite replace_markers_equation_1 in H. discriminate.
    + destruct (match_marker (String b s)) as [[d q]|] eqn:Hm.
      * rewrite (replace_markers_match _ _ _ _ Hm) in H.
        destruct (source_span_head d) as [t Ht]. rewrite Ht, append_cons in H.
        inversion H; subst a. discriminate.
      * rewrite (replace_markers_skip _ _ Hm) in H. inversion H; subst b.
        destruct (IH s Hw1 Hw2 ltac:(assumption)) as [r0 ->].
        exists r0. now rewrite append_cons.
Qed.

Lemma replace_markers_clean_aux (n : nat) (s : string) :
  String.length s <= n -> has_marker (replace_markers s) = false.
Proof.
  revert s. induction n as [|n IH]; intros s Hn.
  - destruct s; [|simpl in Hn; lia].
    rewrite replace_markers_equation_1. reflexivity.
  - destruct s as [|c s]; [rewrite replace_markers_equation_1; reflexivity|].
    destruct (match_marker (String c s)) as [[d q]|] eqn:Hm.
    + rewrite (replace_markers_match _ _ _ _ Hm).
      pose proof (match_marker_shorter _ _ _ Hm) as Hq. simpl in Hq, Hn.
      destruct (match_marker_inv _ _ _ Hm) as (_ & _ & Hd).
      rewrite has_marker_app_free; [apply IH; lia|].
      apply source_span_free_of; try reflexivity.
      now apply digits_free_of.
    + rewrite (replace_markers_skip _ _ Hm), has_marker_cons.
      destruct (match_marker (String c (replace_markers s)))
        as [[d q]|] eqn:Hm'; [|apply IH; simpl in Hn; lia].
      exfalso.
      destruct (match_marker_inv _ _ _ Hm') as (Hu & Hne & Hd).
      change ("[Document " ++ d ++ "]" ++ q)%string
        with (String "[" ("Document " ++ d ++ "]" ++ q)%string) in Hu.
      inversion Hu as [[Hc Hs]]. clear Hu. subst c.
      rewrite <- append_assoc, <- append_assoc in Hs.
      apply replace_markers_reflects in Hs as [r0 Hs0].
      * subst s.
        rewrite !append_assoc in Hm.
        change (String "[" ("Document " ++ d ++ "]" ++ r0))%string
          with ("[Document " ++ d ++ "]" ++ r0)%string in Hm.
        rewrite (match_marker_here d r0 Hne Hd) in Hm. discriminate.
      * rewrite !free_of_app.
        rewrite (digits_free_of "[" d eq_refl Hd). reflexivity.
      * rewrite !free_of_app.
        rewrite (digits_free_of "<" d eq_refl Hd). reflexivity.
Qed.

(** X1. The rewriting of a bot message leaves no marker behind: in the
    rewritten text the pattern matches nowhere, so rewriting a second
    time changes nothing. *)
Theorem replace_markers_leaves_none (text : string) :
  has_marker (replace_markers text) = false
  /\ replace_markers (replace_markers text) = replace_markers text.
Proof.
  assert (H : has_marker (replace_markers text) = false)
    by (apply (replace_markers_clean_aux (String.length text)); lia).
  split; [exact H|]. now apply replace_markers_none.
Qed.

(** ** Splitting into paragraphs *)

Lemma join_split (c : ascii) (s : string) : join c (split c s) = s.
Proof.
  induction s as [|d s IH]; [reflexivity|]. simpl split.
  destruct (split_cons c s) as (piece & rest & E). rewrite E in IH |- *.
  destruct (Ascii.eqb d c) eqn:Hd.
  - apply Ascii.eqb_eq in Hd. subst d.
    change (join c (EmptyString :: piece :: rest))
      with (String c (join c (piece :: rest))).
    now rewrite IH.
  - destruct rest as [|piece' rest].
    + simpl in IH |- *. now rewrite IH.
    + change (join c (String d piece :: piece' :: rest))
        with (String d piece ++ String c (join c (piece' :: rest)))%string.
      change (join c (piece :: piece' :: rest))
        with (piece ++ String c (join c (piece' :: rest)))%string in IH.
      now rewrite append_cons, IH.
Qed.

Lemma split_pieces_free (c : ascii) (s : string) :
  Forall (fun piece => free_of c piece = true) (split c s).
Proof.
  induction s as [|d s IH]; [repeat constructor|]. simpl split.
  destruct (split c s) as [|piece rest]; [constructor|].
  inversion IH as [|? ? Hp Hr]; subst.
  destruct (Ascii.eqb d c) eqn:Hd.
  - constructor; [reflexivity|assumption].
  - constructor; [|assumption].
    unfold free_of in *. simpl. now rewrite Hd, Hp.
Qed.

Lemma split_pieces_blank (c : ascii) (s : string) :
  forallb is_whitespace (list_ascii_of_string s) = true ->
  Forall (fun piece =>
            forallb is_whitespace (list_ascii_of_string piece) = true)
         (split c s).
Proof.
  induction s as [|d s IH]; intros H; [repeat constructor|].
  simpl in H. apply andb_prop in H as [Hd Hs]. specialize (IH Hs).
  simpl split. destruct (split c s) as [|piece rest]; [constructor|].
  inversion IH as [|? ? Hp Hr]; subst.
  destruct (Ascii.eqb d c).
  - constructor; [reflexivity|assumption].
  - constructor; [|assumption]. simpl. now rewrite Hd, Hp.
Qed.

Lemma is_empty_trim (s : string) : is_empty (trim s) = is_blank s.
Proof.
  unfold is_blank.
  destruct (forallb is_whitespace (list_ascii_of_string s)) eqn:E.
  - apply trim_blank_iff in E. now rewrite E.
  - destruct (trim s) eqn:T; [|reflexivity].
    apply trim_blank_iff in T. congruence.
Qed.

(** Splitting is the inverse of joining lines that hold no separator. *)
Lemma split_join (c : ascii) (lines : list string) :
  lines <> [] -> Forall (fun l => free_of c l = true) lines ->
  split c (join c lines) = lines.
Proof.
  induction lines as [|x rest IH]; intros Hne Hall; [congruence|].
  inversion Hall as [|? ? Hx Hrest]; subst.
  destruct rest as [|y rest].
  - simpl. now apply split_free.
  - change (join c (x :: y :: rest))
      with (x ++ String c (join c (y :: rest)))%string.
    rewrite (split_at_separator _ _ _ Hx). f_equal.
    apply IH; [discriminate|assumption].
Qed.

(** However the text is cut into newline-free lines, the paragraphs are
    the lines among them that are not blank. *)
Lemma paragraphs_of_lines (text : string) (lines : list string) :
  join newline lines = text ->
  Forall (fun l => free_of newline l = true) lines ->
  paragraphs_of text = List.filter (fun l => negb (is_blank l)) lines.
Proof.
  intros Hj Hall. subst text. destruct lines as [|x rest]; [reflexivity|].
  unfold paragraphs_of. rewrite (split_join newline (x :: rest));
    [|discriminate|assumption].
  apply List.filter_ext. intros l. now rewrite is_empty_trim.
Qed.

Lemma paragraphs_of_nonblank_lines (text : string) :
  nonblank_lines text (paragraphs_of text).
Proof.
  exists (split newline text). split; [apply join_split|].
  split; [apply split_pieces_free|].
  apply paragraphs_of_lines; [apply join_split|apply split_pieces_free].
Qed.

(** A text of one line that is not blank is shown as that one paragraph,
    as it is. *)
Lemma paragraphs_of_single (text : string) :
  free_of newline text = true -> is_blank text = false ->
  paragraphs_of text = [text].
Proof.
  intros Hf Hb.
  rewrite (paragraphs_of_lines text [text] eq_refl); [|now repeat constructor].
  simpl. now rewrite Hb.
Qed.

(** X2. The paragraphs of a message are the lines of its text that are
    not blank, all of them and in their order: however the text is
    written as newline-free lines joined by newlines, the paragraphs
    shown are exactly the lines among them that hold more than white
    space.  Splitting at the newlines loses nothing (joining the lines
    gives the text back), every paragraph shown is free of newlines and
    does not trim to nothing, and a text that is blank as a whole gives
    an empty bubble. *)
Theorem paragraphs_are_the_nonblank_lines (text : string) :
  nonblank_lines text (paragraphs_of text)
  /\ (forall lines,
        join newline lines = text ->
        Forall (fun l => free_of newline l = true) lines ->
        paragraphs_of text = List.filter (fun l => negb (is_blank l)) lines)
  /\ join newline (split newline text) = text
  /\ Forall (fun p => free_of newline p = true /\ trim p <> "")
            (paragraphs_of text)
  /\ (trim text = "" -> paragraphs_of text = []).
Proof.
  split; [apply paragraphs_of_nonblank_lines|].
  split; [intros lines; apply paragraphs_of_lines|].
  split; [apply join_split|]. split.
  - unfold paragraphs_of. apply List.Forall_forall. intros p Hp.
    apply List.filter_In in Hp as [Hin Hne]. split.
    + pose proof (split_pieces_free newline text) as Hall.
      eapply List.Forall_forall in Hall; eauto.
    + intros E. rewrite E in Hne. discriminate.
  - intros Hblank. apply trim_blank_iff in Hblank.
    unfold paragraphs_of.
    pose proof (split_pieces_blank newline text Hblank) as Hall.
    induction Hall as [|piece rest Hp _ IH]; [reflexivity|]. simpl.
    apply trim_blank_iff in Hp. rewrite Hp. exact IH.
Qed.

Lemma paragraphs_are_the_nonblank_lines_witness :
  paragraphs_of (join newline ["Hello <b>you</b>"; "  "; ""; " second line"])
  = ["Hello <b>you</b>"; " second line"]
  /\ paragraphs_of (String "010"%char " ") = [].
Proof.
  destruct (paragraphs_are_the_nonblank_lines
              (join newline ["Hello <b>you</b>"; "  "; ""; " second line"]))
    as (_ & H & _).
  destruct (paragraphs_are_the_nonblank_lines (String "010"%char " "))
    as (_ & _ & _ & _ & H').
  split.
  - exact (H ["Hello <b>you</b>"; "  "; ""; " second line"] eq_refl
             ltac:(repeat constructor)).
  - exact (H' eq_refl).
Defined.

(** ** Trimming *)








(** ** The extension of a file name *)

Lemma lastIndexOf_free (c : ascii) (s : string) :
  free_of c s = true -> lastIndexOf c s = (-1)%Z.
Proof.
  unfold free_of. induction s as [|d s IH]; simpl; intros H; [reflexivity|].
  apply andb_prop in H as [Hd Hs]. rewrite (IH Hs). simpl.
  apply negb_true_iff in Hd. now rewrite Hd.
Qed.

Lemma lastIndexOf_last (c : ascii) (base rest : string) :
  free_of c rest = true ->
  lastIndexOf c (base ++ String c rest) = Z.of_nat (String.length base).
Proof.
  intros Hr. induction base as [|b base IH].
  - change (EmptyString ++ String c rest)%string with (String c rest).
    simpl. rewrite (lastIndexOf_free c rest Hr). simpl.
    now rewrite Ascii.eqb_refl.
  - rewrite append_cons. cbn [lastIndexOf]. rewrite IH.
    destruct (0 <=? Z.of_nat (String.length base))%Z eqn:E.
    + simpl String.length. lia.
    + apply Z.leb_gt in E. lia.
Qed.

Lemma drop_append (a b : string) : JsString.drop (String.length a) (a ++ b) = b.
Proof.
  induction a as [|x a IH]; [now destruct b|].
  rewrite append_cons. simpl. exact IH.
Qed.

Lemma lower_char_dot (c : ascii) : lower_char c = "."%char -> c = "."%char.
Proof.
  destruct c as [[] [] [] [] [] [] [] []]; vm_compute; intros H;
    first [reflexivity | discriminate H].
Qed.

Lemma toLowerCase_free_of_dot (s : string) :
  free_of "." s = true -> free_of "." (toLowerCase s) = true.
Proof.
  unfold free_of. induction s as [|c s IH]; simpl; intros H; [reflexivity|].
  apply andb_prop in H as [Hc Hs]. rewrite (IH Hs), andb_true_r.
  destruct (Ascii.eqb (lower_char c) ".") eqn:E; [|reflexivity].
  apply Ascii.eqb_eq, lower_char_dot in E. subst c. discriminate.
Qed.

Lemma includes_needs_dot (s : string) :
  free_of "." s = true -> includes validTypes s = false.
Proof.
  intros H. unfold includes, validTypes. simpl.
  destruct (String.eqb s ".pdf") eqn:E1;
    [apply String.eqb_eq in E1; subst; discriminate|].
  destruct (String.eqb s ".txt") eqn:E2;
    [apply String.eqb_eq in E2; subst; discriminate|].
  destruct (String.eqb s ".docx") eqn:E3;
    [apply String.eqb_eq in E3; subst; discriminate|].
  reflexivity.
Qed.

Lemma fileExtension_last_dot_part (base ext : string) :
  free_of "." ext = true ->
  fileExtension (base ++ "." ++ ext) = ("." ++ toLowerCase ext)%string.
Proof.
  intros He. unfold fileExtension, substring_from.
  change (base ++ "." ++ ext)%string with (base ++ String "." ext)%string.
  rewrite (lastIndexOf_last "." base ext He).
  rewrite Z.max_r by lia. rewrite Nat2Z.id, drop_append. reflexivity.
Qed.

(** X4. Whether a chosen file is accepted depends only on what follows
    the last dot of its name, whatever the case of the letters: the
    extension compared is the dot with that part in lower case, and the
    file is accepted (status "Selected file: ...", the error class
    cleared, the confirm button enabled) exactly when that part is pdf,
    txt or docx in lower case; otherwise the error message is shown.
    Nothing is sent either way. *)
Theorem file_accepted_by_last_extension (p : page) (f : file)
    (base ext : string) :
  name f = (base ++ "." ++ ext)%string -> free_of "." ext = true ->
  let q := step (ChangeFile (Some f)) p in
  fileExtension (name f) = ("." ++ toLowerCase ext)%string
  /\ fetched q = fetched p /\ waiting q = waiting p
  /\ (In (toLowerCase ext) ["pdf"; "txt"; "docx"] ->
      uploadStatus_textContent q = ("Selected file: " ++ name f)%string
      /\ uploadStatus_className q = ""
      /\ confirmUploadBtn_disabled q = false)
  /\ (~ In (toLowerCase ext) ["pdf"; "txt"; "docx"] ->
      uploadStatus_textContent q = invalid_type_message
      /\ uploadStatus_className q = "text-error"
      /\ confirmUploadBtn_disabled q = confirmUploadBtn_disabled p).
Proof.
  intros Hn He q.
  assert (Hx : fileExtension (name f) = ("." ++ toLowerCase ext)%string)
    by (rewrite Hn; now apply fileExtension_last_dot_part).
  split; [exact Hx|].
  unfold q.
  change (step (ChangeFile (Some f)) p)
    with (handleFileSelect (set_fileUpload_files (Some f) p)).
  unfold handleFileSelect.
  change (fileUpload_files (set_fileUpload_files (Some f) p)) with (Some f).
  cbv beta iota. rewrite Hx. split; [|split; [|split]].
  - destruct (negb _); reflexivity.
  - destruct (negb _); reflexivity.
  - intros Hin.
    assert (E : includes validTypes ("." ++ toLowerCase ext) = true).
    { simpl in Hin. destruct Hin as [<-|[<-|[<-|[]]]]; reflexivity. }
    rewrite E. simpl. repeat split; reflexivity.
  - intros Hout.
    assert (E : includes validTypes ("." ++ toLowerCase ext) = false).
    { unfold includes, validTypes.
      change (existsb (String.eqb ("." ++ toLowerCase ext))
                      [".pdf"; ".txt"; ".docx"])
        with (String.eqb (toLowerCase ext) "pdf"
              || (String.eqb (toLowerCase ext) "txt"
                  || (String.eqb (toLowerCase ext) "docx" || false))).
      destruct (String.eqb (toLowerCase ext) "pdf") eqn:E1;
        [apply String.eqb_eq in E1; exfalso; apply Hout; simpl; auto|].
      destruct (String.eqb (toLowerCase ext) "txt") eqn:E2;
        [apply String.eqb_eq in E2; exfalso; apply Hout; simpl; auto|].
      destruct (String.eqb (toLowerCase ext) "docx") eqn:E3;
        [apply String.eqb_eq in E3; exfalso; apply Hout; simpl; auto|].
      reflexivity. }
    rewrite E. simpl. repeat split; reflexivity.
Qed.

Lemma file_accepted_by_last_extension_witness :
  let f := {| name := "Price.List.2024.DocX" |} in
  let q := step (ChangeFile (Some f)) blank in
  fileExtension (name f) = ".docx"
  /\ uploadStatus_textContent q = "Selected file: Price.List.2024.DocX"
  /\ confirmUploadBtn_disabled q = false.
Proof.
  intros f q.
  destruct (file_accepted_by_last_extension blank f "Price.List.2024" "DocX"
              eq_refl eq_refl) as (H1 & _ & _ & H2 & _).
  split; [exact H1|].
  destruct (H2 ltac:(simpl; auto)) as (H3 & _ & H4).
  split; [exact H3 | exact H4].
Defined.

(** X5. A file whose name has no dot is never accepted: the whole name,
    in lower case, stands for its extension and matches none of the
    three types, so the error message is shown and the confirm button is
    not enabled by it. *)
Theorem file_without_dot_rejected (p : page) (f : file) :
  free_of "." (name f) = true ->
  let q := step (ChangeFile (Some f)) p in
  fileExtension (name f) = toLowerCase (name f)
  /\ uploadStatus_textContent q = invalid_type_message
  /\ uploadStatus_className q = "text-error"
  /\ confirmUploadBtn_disabled q = confirmUploadBtn_disabled p
  /\ fetched q = fetched p.
Proof.
  intros Hf q.
  assert (Hx : fileExtension (name f) = toLowerCase (name f)).
  { unfold fileExtension, substring_from.
    rewrite (lastIndexOf_free "." (name f) Hf). reflexivity. }
  split; [exact Hx|].
  assert (E : includes validTypes (fileExtension (name f)) = false)
    by (rewrite Hx; apply includes_needs_dot, toLowerCase_free_of_dot, Hf).
  destruct (handleFileSelect_rejects (set_fileUpload_files (Some f) p) f
              eq_refl E) as (H1 & H2 & H3 & H4 & _).
  repeat split; assumption.
Qed.

Lemma file_without_dot_rejected_witness :
  uploadStatus_textContent (step (ChangeFile (Some {| name := "pdf" |})) blank)
  = invalid_type_message.
Proof.
  destruct (file_without_dot_rejected blank {| name := "pdf" |} eq_refl)
    as (_ & H & _).
  exact H.
Defined.

(** ** The payload of an upload *)

(** X6. What is sent as [file] is the text between the first and the
    second comma of the reader's result.  When the result has no comma
    at all, the request is made all the same and its body has the
    [filename] only, no [file] property. *)
Theorem upload_payload_edges (q q' : page) (f : file) (id : nat) :
  resume id q = Some (FileRead f, q') ->
  (forall result, free_of "," result = true ->
     fetched (step (ReaderSettled id (Some result)) q)
     = fetched q ++ [POST UPLOAD_ENDPOINT "application/json"
                       (VObj [("filename", VStr (name f))])])
  /\ (forall header piece rest,
        free_of "," header = true -> free_of "," piece = true ->
        fetched (step (ReaderSettled id
                         (Some (header ++ "," ++ piece ++ "," ++ rest)%string))
                      q)
        = fetched q ++ [POST UPLOAD_ENDPOINT "application/json"
                          (VObj [("file", VStr piece);
                                 ("filename", VStr (name f))])]).
Proof.
  intros Hr. split.
  - intros result Hfree. simpl. rewrite Hr.
    apply resume_page in Hr as [w ->].
    unfold reader_onload, base64_of. rewrite (split_free _ _ Hfree).
    reflexivity.
  - intros header piece rest Hh Hp. simpl. rewrite Hr.
    apply resume_page in Hr as [w ->].
    unfold reader_onload, base64_of.
    change (header ++ "," ++ piece ++ "," ++ rest)%string
      with (header ++ String "," (piece ++ String "," rest))%string.
    rewrite (split_at_separator _ _ _ Hh), (split_at_separator _ _ _ Hp).
    reflexivity.
Qed.

Lemma upload_payload_edges_witness :
  let f := {| name := "empty.txt" |} in
  let q := run [ClickUpload; ChangeFile (Some f); ClickConfirm]
               (DOMContentLoaded "0.4fzyo82mvyr" blank) in
  fetched (step (ReaderSettled 1 (Some "data:")) q)
  = fetched q ++ [POST UPLOAD_ENDPOINT "application/json"
                    (VObj [("filename", VStr "empty.txt")])].
Proof.
  intros f q.
  destruct (upload_payload_edges q _ f 1 eq_refl) as [H _].
  exact (H "data:" eq_refl).
Defined.

(** ** Replies that cannot be used, and failures *)

Lemma existsb_without_typing (ind : nat) (l : list node) :
  existsb (is_typing ind) (without_typing ind l) = false.
Proof.
  unfold without_typing. induction l as [|n l IH]; [reflexivity|]. simpl.
  destruct (is_typing ind n) eqn:E; simpl; [exact IH|]. now rewrite E.
Qed.

Lemma chat_catch_after_removal (ind : nat) (p : page) :
  settled (chat_catch ind (set_chatMessages (without_typing ind (chatMessages p)) p))
  = set_chatMessages (without_typing ind (chatMessages p)) p.
Proof.
  unfold chat_catch, removeChild. simpl chatMessages.
  now rewrite existsb_without_typing.
Qed.

Lemma on_fetch_unusable (ind : nat) (data : value) (p : page) :
  existsb (is_typing ind) (chatMessages p) = true ->
  unusable_chat_reply data ->
  on_fetch (ChatReply ind) (Resolved data) p
  = set_chatMessages (without_typing ind (chatMessages p)) p.
Proof.
  intros Ht Hbad. unfold on_fetch, chat_then, removeChild.
  rewrite Ht. cbn [bind]. unfold reading.
  destruct Hbad as [Hs | (success & response & Hs & Htr & Hresp & Hno)].
  - rewrite Hs. cbn [catching]. apply chat_catch_after_removal.
  - rewrite Hs, Htr, Hresp.
    destruct response as [| | |text|]; try (exfalso; now apply (Hno text));
      cbn [addMessageToChat catching]; apply chat_catch_after_removal.
Qed.

(** X7. A reply to a chat request that the handler cannot use -- a JSON
    null, or a truthy [success] with a [response] that is missing or not
    a string -- takes the typing indicator away and shows nothing at
    all: the handler throws after removing the indicator, and the
    [catch] handler throws in turn on removing it a second time, before
    it has shown the apology or written to the console. *)
Theorem unusable_chat_reply_shows_nothing (q q' : page) (id ind : nat)
    (data : value) :
  resume id q = Some (ChatReply ind, q') ->
  existsb (is_typing ind) (chatMessages q) = true ->
  unusable_chat_reply data ->
  let q1 := step (FetchSettled id (Resolved data)) q in
  chatMessages q1 = without_typing ind (chatMessages q)
  /\ console q1 = console q
  /\ fetched q1 = fetched q.
Proof.
  intros Hr Ht Hbad q1. unfold q1.
  cbn [step]. rewrite Hr.
  apply resume_page in Hr as [w ->].
  rewrite (on_fetch_unusable ind data (set_waiting w q) Ht Hbad).
  repeat split; reflexivity.
Qed.

Lemma unusable_chat_reply_shows_nothing_witness :
  let q := run [InputText "Where is my order?" "20"; ClickSend]
               (DOMContentLoaded "0.4fzyo82mvyr" blank) in
  chatMessages (step (FetchSettled 2 (Resolved VNull)) q)
  = without_typing 1 (chatMessages q).
Proof.
  intros q.
  destruct (unusable_chat_reply_shows_nothing q _ 2 1 VNull eq_refl eq_refl
              (or_introl eq_refl)) as [H _].
  exact H.
Defined.

(** X8. However an upload fails -- the request is rejected, the reply
    cannot be read, or its [success] is not truthy -- the status line
    turns to the error class, the confirm button is enabled again for
    another try, and neither the chat nor the network sees anything of
    it; no timer is set to close the modal.  The text is "Upload failed.
    Please try again." unless the reply itself reports the failure. *)
Theorem upload_failure_allows_retry (q q' : page) (f : file) (id : nat)
    (o : outcome) :
  resume id q = Some (UploadReply f, q') ->
  upload_failed o ->
  let q1 := step (FetchSettled id o) q in
  uploadStatus_className q1 = "text-error"
  /\ confirmUploadBtn_disabled q1 = false
  /\ chatMessages q1 = chatMessages q
  /\ fetched q1 = fetched q
  /\ waiting q1 = waiting q'
  /\ ((o = Rejected \/ exists data, o = Resolved data
                                    /\ get "success" data = None) ->
      uploadStatus_textContent q1 = "Upload failed. Please try again.").
Proof.
  intros Hr Hfail q1. unfold q1. simpl. rewrite Hr.
  apply resume_page in Hr as [w ->].
  destruct o as [|data]; simpl on_fetch.
  - repeat split; reflexivity.
  - unfold upload_then, reading.
    destruct Hfail as [Hs | (success & Hs & Htr)].
    + rewrite Hs. simpl. repeat split; reflexivity.
    + rewrite Hs, Htr.
      destruct (get "error" data) as [error|] eqn:He.
      * simpl. repeat split; try reflexivity.
        intros [Hrej | (data' & Hd & Hnone)]; [discriminate|].
        inversion Hd; subst. congruence.
      * simpl. repeat split; reflexivity.
Qed.

Lemma upload_failure_allows_retry_witness :
  let f := {| name := "guide.pdf" |} in
  let q := run [ClickUpload; ChangeFile (Some f); ClickConfirm;
                ReaderSettled 1 (Some "data:application/pdf;base64,JVBERi0=")]
               (DOMContentLoaded "0.4fzyo82mvyr" blank) in
  confirmUploadBtn_disabled (step (FetchSettled 2 Rejected) q) = false
  /\ uploadStatus_textContent (step (FetchSettled 2 Rejected) q)
     = "Upload failed. Please try again.".
Proof.
  intros f q.
  destruct (upload_failure_allows_retry q _ f 2 Rejected eq_refl I)
    as (_ & H1 & _ & _ & _ & H2).
  split; [exact H1 | exact (H2 (or_introl eq_refl))].
Defined.

(** X9. A health check that fails -- the request is rejected, or the
    reply is a JSON null on which [status] cannot be read -- shows
    nothing to the user: the chat is left as it is and the failure goes
    to the console only. *)
Theorem failed_health_check_is_silent (q q' : page) (id : nat) (o : outcome) :
  resume id q = Some (HealthReply, q') ->
  (o = Rejected \/ exists data, o = Resolved data /\ get "status" data = None) ->
  let q1 := step (FetchSettled id o) q in
  chatMessages q1 = chatMessages q
  /\ fetched q1 = fetched q
  /\ List.last (console q1) "" = "Error checking health:".
Proof.
  intros Hr Ho q1. unfold q1. simpl. rewrite Hr.
  apply resume_page in Hr as [w ->].
  destruct Ho as [-> | (data & -> & Hs)]; simpl on_fetch.
  - repeat split; try reflexivity. simpl. apply last_last.
  - unfold health_then, reading. rewrite Hs. simpl.
    repeat split; try reflexivity. apply last_last.
Qed.

Lemma failed_health_check_is_silent_witness :
  chatMessages (step (FetchSettled 0 (Resolved VNull))
                     (DOMContentLoaded "0.4fzyo82mvyr" blank))
  = [].
Proof.
  destruct (failed_health_check_is_silent
              (DOMContentLoaded "0.4fzyo82mvyr" blank) _ 0 (Resolved VNull)
              eq_refl (or_intror (ex_intro _ VNull (conj eq_refl eq_refl))))
    as [H _].
  exact H.
Defined.

(** ** Confirming an upload *)

(** X10. Without a selected file nothing is read and nothing is sent.
    Opening the modal forgets the selection and disables the confirm
    button (the class of the status line is all it leaves as it was), so
    a click on the button does nothing; and where the button is enabled
    but the selection is gone, the click only shows "Please select a
    file first." *)
Theorem no_file_no_upload (p : page) :
  (let q := step ClickUpload p in
   fileUpload_files q = None /\ confirmUploadBtn_disabled q = true
   /\ uploadStatus_textContent q = "" /\ uploadProgress_width q = "0"
   /\ uploadModal_display q = "flex"
   /\ uploadStatus_className q = uploadStatus_className p
   /\ step ClickConfirm q = q)
  /\ (fileUpload_files p = None ->
      fetched (step ClickConfirm p) = fetched p
      /\ waiting (step ClickConfirm p) = waiting p
      /\ (confirmUploadBtn_disabled p = false ->
          uploadStatus_textContent (step ClickConfirm p)
          = "Please select a file first."
          /\ uploadStatus_className (step ClickConfirm p) = "text-error")).
Proof.
  split; [repeat split; reflexivity|].
  intros Hf. simpl. unfold uploadDocument. rewrite Hf.
  destruct (confirmUploadBtn_disabled p); repeat split; try reflexivity;
    intros; discriminate.
Qed.

Lemma no_file_no_upload_witness :
  let p := run [ClickUpload; ChangeFile (Some {| name := "guide.pdf" |});
                ChangeFile None]
               (DOMContentLoaded "0.4fzyo82mvyr" blank) in
  fetched (step ClickConfirm p) = fetched p
  /\ uploadStatus_textContent (step ClickConfirm p)
     = "Please select a file first.".
Proof.
  intros p.
  destruct (no_file_no_upload p) as [_ H].
  destruct (H eq_refl) as (H1 & _ & H2).
  destruct (H2 eq_refl) as [H3 _].
  split; [exact H1 | exact H3].
Defined.

(** X11. The click that starts an upload disables the confirm button, so
    a second click right after it is ignored: one reader is started, not
    two, and nothing is sent before the reader is done. *)
Theorem second_confirm_click_ignored (p : page) (f : file) :
  fileUpload_files p = Some f -> confirmUploadBtn_disabled p = false ->
  step ClickConfirm (step ClickConfirm p) = step ClickConfirm p
  /\ waiting (run [ClickConfirm; ClickConfirm] p)
     = waiting p ++ [(fresh p, FileRead f)]
  /\ fetched (run [ClickConfirm; ClickConfirm] p) = fetched p.
Proof.
  intros Hf Hd.
  destruct (uploadDocument_reads p f Hf Hd) as (H1 & H2 & _ & H4).
  assert (E : step ClickConfirm (step ClickConfirm p) = step ClickConfirm p).
  { remember (step ClickConfirm p) as q. simpl. now rewrite H4. }
  split; [exact E|].
  change (run [ClickConfirm; ClickConfirm] p)
    with (step ClickConfirm (step ClickConfirm p)).
  rewrite E. now split.
Qed.

Lemma second_confirm_click_ignored_witness :
  let p := run [ClickUpload; ChangeFile (Some {| name := "guide.pdf" |})]
               (DOMContentLoaded "0.4fzyo82mvyr" blank) in
  step ClickConfirm (step ClickConfirm p) = step ClickConfirm p.
Proof.
  intros p.
  destruct (second_confirm_click_ignored p {| name := "guide.pdf" |}
              eq_refl eq_refl) as [H _].
  exact H.
Defined.

(** ** What a settled request does to the chat *)

Lemma without_typing_absent (ind : nat) (l : list node) :
  existsb (is_typing ind) l = false -> without_typing ind l = l.
Proof.
  unfold without_typing. induction l as [|n l IH]; [reflexivity|]. simpl.
  intros H. apply orb_false_iff in H as [Hn Hl].
  now rewrite Hn, (IH Hl).
Qed.

Lemma typing_ids_app (a b : list node) :
  typing_ids (a ++ b) = typing_ids a ++ typing_ids b.
Proof. unfold typing_ids. apply List.flat_map_app. Qed.

(** The reply to a chat request, whatever it is, takes the indicator of
    that request out of the chat and appends message bubbles only, one
    at most; it registers nothing. *)
Lemma chat_settle_effect (ind : nat) (o : outcome) (p : page) :
  exists added,
    chatMessages (on_fetch (ChatReply ind) o p)
    = without_typing ind (chatMessages p) ++ added
    /\ typing_ids added = [] /\ length added <= 1
    /\ waiting (on_fetch (ChatReply ind) o p) = waiting p
    /\ fresh (on_fetch (ChatReply ind) o p) = fresh p.
Proof.
  destruct (existsb (is_typing ind) (chatMessages p)) eqn:Ht.
  - destruct o as [|data].
    + unfold on_fetch, chat_catch, removeChild. rewrite Ht.
      cbn [bind addMessageToChat settled].
      eexists. split; [reflexivity|]. repeat split; simpl; lia.
    + assert (Hc : forall c,
                c = Throw (set_chatMessages
                             (without_typing ind (chatMessages p)) p)
                \/ (exists m, c = Normal
                      (set_chatMessages
                         (without_typing ind (chatMessages p) ++ [m])
                         (set_chatMessages
                            (without_typing ind (chatMessages p)) p))
                      /\ typing_ids [m] = []) ->
                exists added,
                  chatMessages (catching c (chat_catch ind))
                  = without_typing ind (chatMessages p) ++ added
                  /\ typing_ids added = [] /\ length added <= 1
                  /\ waiting (catching c (chat_catch ind)) = waiting p
                  /\ fresh (catching c (chat_catch ind)) = fresh p).
      { intros c [-> | (m & -> & Hm)].
        - cbn [catching]. rewrite chat_catch_after_removal.
          exists []. rewrite app_nil_r. repeat split; simpl; lia.
        - cbn [catching]. exists [m]. repeat split; simpl; auto. }
      unfold on_fetch. apply Hc.
      unfold chat_then, removeChild. rewrite Ht. cbn [bind]. unfold reading.
      destruct (get "success" data) as [success|]; [|now left].
      destruct (truthy success).
      * destruct (get "response" data) as [response|]; [|now left].
        destruct response; try (now left).
        right. eexists. split; reflexivity.
      * destruct (get "error" data) as [error|]; [|now left].
        right. eexists. split; reflexivity.
  - assert (E : on_fetch (ChatReply ind) o p = p).
    { destruct o as [|data]; unfold on_fetch.
      - unfold chat_catch, removeChild. now rewrite Ht.
      - unfold chat_then, removeChild. rewrite Ht. cbn [bind catching].
        unfold chat_catch, removeChild. now rewrite Ht. }
    rewrite E, (without_typing_absent _ _ Ht).
    exists []. rewrite app_nil_r. repeat split; simpl; lia.
Qed.

(** The reply to an upload appends message bubbles only to the chat, and
    registers at most the timer that closes the modal. *)
Lemma upload_settle_effect (f : file) (o : outcome) (p : page) :
  exists added,
    chatMessages (on_fetch (UploadReply f) o p) = chatMessages p ++ added
    /\ typing_ids added = []
    /\ ((waiting (on_fetch (UploadReply f) o p) = waiting p
         /\ fresh (on_fetch (UploadReply f) o p) = fresh p)
        \/ (waiting (on_fetch (UploadReply f) o p)
            = waiting p ++ [(fresh p, CloseModalTimer)]
            /\ fresh (on_fetch (UploadReply f) o p) = S (fresh p))).
Proof.
  destruct o as [|data]; unfold on_fetch.
  - exists []. rewrite app_nil_r. repeat split; auto.
  - unfold upload_then, reading.
    destruct (get "success" data) as [success|];
      [|exists []; rewrite app_nil_r; repeat split; auto].
    destruct (truthy success).
    + destruct (get "message" data) as [message|];
        [|exists []; rewrite app_nil_r; repeat split; auto].
      eexists. split; [reflexivity|]. split; [reflexivity|].
      right. split; reflexivity.
    + destruct (get "error" data) as [error|];
        exists []; rewrite app_nil_r; repeat split; auto.
Qed.

Lemma health_settle_effect (o : outcome) (p : page) :
  exists added,
    chatMessages (on_fetch HealthReply o p) = chatMessages p ++ added
    /\ typing_ids added = []
    /\ waiting (on_fetch HealthReply o p) = waiting p
    /\ fresh (on_fetch HealthReply o p) = fresh p.
Proof.
  destruct o as [|data]; unfold on_fetch.
  - exists []. rewrite app_nil_r. repeat split; auto.
  - unfold health_then, reading.
    destruct (get "status" data) as [status|];
      [|exists []; rewrite app_nil_r; repeat split; auto].
    destruct (strict_ne_string status "healthy").
    + eexists. split; [reflexivity|]. repeat split; reflexivity.
    + exists []. rewrite app_nil_r. repeat split; auto.
Qed.

(** ** The transcript only grows *)

Lemma messages_of_app (a b : list node) :
  messages_of (a ++ b) = messages_of a ++ messages_of b.
Proof. unfold messages_of. apply List.filter_app. Qed.

Lemma messages_of_without_typing (ind : nat) (l : list node) :
  messages_of (without_typing ind l) = messages_of l.
Proof.
  unfold messages_of, without_typing.
  induction l as [|n l IH]; [reflexivity|]. simpl.
  destruct n as [cls ps|i]; simpl; [now rewrite IH|].
  destruct (Nat.eqb i ind); simpl; exact IH.
Qed.

Lemma sendMessage_chat (p : page) :
  sendMessage p = p
  \/ exists m,
       chatMessages (sendMessage p)
       = chatMessages p ++ [Message "message user" (paragraphs_of m);
                            Typing (fresh p)]
       /\ waiting (sendMessage p)
          = waiting p ++ [(S (fresh p), ChatReply (fresh p))]
       /\ fresh (sendMessage p) = S (S (fresh p)).
Proof.
  destruct (trim (chatInput_value p)) as [|c m] eqn:Hm.
  - left. now apply sendMessage_blank_noop_aux.
  - right. exists (String c m).
    destruct (sendMessage_sends p (String c m) Hm ltac:(discriminate))
      as (_ & H2 & H3 & _).
    split; [exact H2|]. split; [exact H3|].
    unfold sendMessage. rewrite Hm. reflexivity.
Qed.

Lemma step_messages (e : event) (p : page) :
  exists added,
    messages_of (chatMessages (step e p))
    = messages_of (chatMessages p) ++ added.
Proof.
  assert (Hsame : forall q, chatMessages q = chatMessages p ->
            exists added, messages_of (chatMessages q)
                          = messages_of (chatMessages p) ++ added).
  { intros q ->. exists []. now rewrite app_nil_r. }
  assert (Hsend : exists added,
            messages_of (chatMessages (sendMessage p))
            = messages_of (chatMessages p) ++ added).
  { destruct (sendMessage_chat p) as [-> | (m & -> & _)].
    - exists []. now rewrite app_nil_r.
    - rewrite messages_of_app. eexists. reflexivity. }
  destruct e; cbn [step].
  - now apply Hsame.
  - unfold handleInputKeypress.
    destruct (String.eqb key "Enter" && negb shiftKey);
      [exact Hsend|now apply Hsame].
  - exact Hsend.
  - now apply Hsame.
  - now apply Hsame.
  - apply Hsame. unfold handleFileSelect. simpl.
    destruct f; [destruct (negb _)|]; reflexivity.
  - apply Hsame. destruct (confirmUploadBtn_disabled p); [reflexivity|].
    unfold uploadDocument. destruct (fileUpload_files p); reflexivity.
  - destruct (resume id p) as [[k p']|] eqn:Hr; [|now apply Hsame].
    apply resume_page in Hr as [w ->].
    destruct k as [ind|f| |f|]; try (now apply Hsame).
    + destruct (chat_settle_effect ind o (set_waiting w p))
        as (added & -> & _).
      rewrite messages_of_app, messages_of_without_typing.
      eexists. reflexivity.
    + destruct (upload_settle_effect f o (set_waiting w p))
        as (added & -> & _).
      rewrite messages_of_app. eexists. reflexivity.
    + destruct (health_settle_effect o (set_waiting w p))
        as (added & -> & _).
      rewrite messages_of_app. eexists. reflexivity.
  - apply Hsame. destruct (resume id p) as [[k p']|] eqn:Hr; [|reflexivity].
    apply resume_page in Hr as [w ->].
    destruct k; try reflexivity. destruct result; reflexivity.
  - apply Hsame. destruct (resume id p) as [[k p']|] eqn:Hr; [|reflexivity].
    apply resume_page in Hr as [w ->].
    destruct k; reflexivity.
Qed.

(** X12. The transcript only grows: whatever the events, the message
    bubbles that were in the chat are still there afterwards, unchanged
    and in the same order, with the new ones after them.  Only typing
    indicators are ever taken out. *)
Theorem transcript_only_grows (events : list event) (p : page) :
  exists added,
    messages_of (chatMessages (run events p))
    = messages_of (chatMessages p) ++ added.
Proof.
  revert p. induction events as [|e events IH]; intros p.
  - exists []. now rewrite app_nil_r.
  - change (run (e :: events) p) with (run events (step e p)).
    destruct (IH (step e p)) as (later & ->).
    destruct (step_messages e p) as (added & ->).
    exists (added ++ later). now rewrite app_assoc.
Qed.

(** ** The requests of a run *)

Lemma step_posts (e : event) (p : page) :
  fetched (step e p) = fetched p
  \/ exists r, fetched (step e p) = fetched p ++ [r] /\ json_post r.
Proof.
  assert (Hsend : fetched (sendMessage p) = fetched p
                  \/ exists r, fetched (sendMessage p) = fetched p ++ [r]
                               /\ json_post r).
  { destruct (trim (chatInput_value p)) as [|c m] eqn:Hm.
    - left. now rewrite sendMessage_blank_noop_aux.
    - right.
      destruct (sendMessage_sends p (String c m) Hm ltac:(discriminate))
        as (H1 & _).
      eexists. split; [exact H1|]. split; [now left|reflexivity]. }
  destruct e; cbn [step].
  - now left.
  - unfold handleInputKeypress.
    destruct (String.eqb key "Enter" && negb shiftKey); [exact Hsend|now left].
  - exact Hsend.
  - now left.
  - now left.
  - left. unfold handleFileSelect. simpl.
    destruct f; [destruct (negb _)|]; reflexivity.
  - left. destruct (confirmUploadBtn_disabled p); [reflexivity|].
    unfold uploadDocument. destruct (fileUpload_files p); reflexivity.
  - left. destruct (resume id p) as [[k p']|] eqn:Hr; [|reflexivity].
    apply resume_page in Hr as [w ->].
    destruct k; try reflexivity;
      match goal with
      | |- fetched (on_fetch ?k o ?q) = _ =>
          destruct (on_fetch_wire k o q) as [_ H]; exact H
      end.
  - destruct (resume id p) as [[k p']|] eqn:Hr; [|now left].
    apply resume_page in Hr as [w ->].
    destruct k; try (now left).
    destruct result as [data_url|]; [|now left].
    right. eexists. split; [reflexivity|]. split; [now right|reflexivity].
  - left. destruct (resume id p) as [[k p']|] eqn:Hr; [|reflexivity].
    apply resume_page in Hr as [w ->].
    destruct k; reflexivity.
Qed.

Lemma run_posts (events : list event) (p : page) :
  exists sent,
    fetched (run events p) = fetched p ++ sent
    /\ Forall json_post sent /\ length sent <= length events.
Proof.
  revert p. induction events as [|e events IH]; intros p.
  - exists []. rewrite app_nil_r. repeat split; [constructor|simpl; lia].
  - change (run (e :: events) p) with (run events (step e p)).
    destruct (IH (step e p)) as (later & -> & Hl & Hn).
    destruct (step_posts e p) as [-> | (r & -> & Hr)].
    + exists later. repeat split; [assumption|simpl; lia].
    + exists (r :: later). rewrite <- app_assoc. repeat split.
      * now constructor.
      * simpl. lia.
Qed.

(** X13. The health interface is asked once, when the page loads, and
    never again: the log of requests of any run begins with the GET to
    the health endpoint, and everything after it is a JSON POST to the
    chat or to the upload endpoint, at most one for each event. *)
Theorem requests_of_a_run (random36 : string) (html : page)
    (events : list event) :
  exists sent,
    fetched (run events (DOMContentLoaded random36 html))
    = GET HEALTH_ENDPOINT :: sent
    /\ Forall json_post sent
    /\ length sent <= length events.
Proof.
  destruct (run_posts events (DOMContentLoaded random36 html))
    as (sent & E & H1 & H2).
  exists sent. split; [exact E|]. now split.
Qed.

(** ** Typing indicators and pending chat requests *)

Lemma take_continuation_split (id : nat) (w rest : list (nat * continuation))
    (k : continuation) :
  take_continuation id w = Some (k, rest) ->
  exists w1 w2, w = w1 ++ (id, k) :: w2 /\ rest = w1 ++ w2.
Proof.
  revert rest. induction w as [|[i k'] w IH]; intros rest H; [discriminate|].
  simpl in H. destruct (Nat.eqb i id) eqn:E.
  - apply Nat.eqb_eq in E. inversion H; subst. now exists [], rest.
  - destruct (take_continuation id w) as [[k1 rest1]|]; [|discriminate].
    inversion H; subst.
    destruct (IH rest1 eq_refl) as (w1 & w2 & -> & ->).
    now exists ((i, k') :: w1), w2.
Qed.

Lemma awaited_indicators_app (a b : list (nat * continuation)) :
  awaited_indicators (a ++ b) = awaited_indicators a ++ awaited_indicators b.
Proof. unfold awaited_indicators. apply List.flat_map_app. Qed.

Lemma typing_ids_without_typing (ind : nat) (l : list node) :
  typing_ids (without_typing ind l)
  = List.filter (fun i => negb (Nat.eqb i ind)) (typing_ids l).
Proof.
  unfold without_typing.
  induction l as [|n l IH]; [reflexivity|].
  destruct n as [cls ps|i]; simpl; [exact IH|].
  destruct (Nat.eqb i ind); simpl; now rewrite IH.
Qed.

Lemma typing_ids_existsb (ind : nat) (l : list node) :
  In ind (typing_ids l) -> existsb (is_typing ind) l = true.
Proof.
  induction l as [|n l IH]; simpl; [tauto|].
  destruct n as [cls ps|i]; simpl; [exact IH|].
  intros [->|H]; [now rewrite Nat.eqb_refl|].
  rewrite (IH H). apply orb_true_r.
Qed.

Lemma filter_others_id (x : nat) (l : list nat) :
  ~ In x l -> List.filter (fun i => negb (Nat.eqb i x)) l = l.
Proof.
  induction l as [|a l IH]; simpl; intros H; [reflexivity|].
  destruct (Nat.eqb a x) eqn:E.
  - apply Nat.eqb_eq in E. subst. tauto.
  - simpl. f_equal. apply IH. tauto.
Qed.

Lemma filter_others_remove (x : nat) (a b : list nat) :
  List.NoDup (a ++ x :: b) ->
  List.filter (fun i => negb (Nat.eqb i x)) (a ++ x :: b) = a ++ b.
Proof.
  intros H. pose proof (List.NoDup_remove_2 _ _ _ H) as Hx.
  rewrite List.filter_app. simpl. rewrite Nat.eqb_refl. simpl.
  rewrite !filter_others_id; [reflexivity| |];
    intros Hin; apply Hx, List.in_or_app; tauto.
Qed.

Lemma NoDup_snoc (x : nat) (l : list nat) :
  List.NoDup l -> ~ In x l -> List.NoDup (l ++ [x]).
Proof.
  induction 1 as [|a l Ha Hl IH]; intros Hx; simpl.
  - constructor; [tauto|constructor].
  - constructor.
    + intros Hin. apply List.in_app_or in Hin as [Hin|[->|[]]]; [tauto|].
      apply Hx. now left.
    + apply IH. intros Hin. apply Hx. now right.
Qed.

Lemma below_not_in (x : nat) (l : list nat) :
  Forall (fun i => i < x) l -> ~ In x l.
Proof.
  intros H Hin. eapply List.Forall_forall in H; eauto. lia.
Qed.

Lemma Forall_below_mono (x y : nat) (l : list nat) :
  x <= y -> Forall (fun i => i < x) l -> Forall (fun i => i < y) l.
Proof.
  intros Hxy H. eapply List.Forall_impl; [|exact H]. intros i Hi. simpl in Hi. lia.
Qed.

(** Pages that agree on the chat's indicators, on what is waiting and on
    the next number are tidy together. *)
Lemma tidy_same (p q : page) :
  tidy p ->
  typing_ids (chatMessages q) = typing_ids (chatMessages p) ->
  waiting q = waiting p -> fresh q = fresh p -> tidy q.
Proof. unfold tidy. intros H -> -> ->. exact H. Qed.

Lemma tidy_await (p q : page) (k : continuation) :
  tidy p ->
  typing_ids (chatMessages q) = typing_ids (chatMessages p) ->
  waiting q = waiting p ++ [(fresh p, k)] ->
  awaited_indicators [(fresh p, k)] = [] ->
  fresh q = S (fresh p) -> tidy q.
Proof.
  unfold tidy. intros (H1 & H2 & H3 & H4 & H5) -> -> Hk ->.
  rewrite awaited_indicators_app, Hk, app_nil_r, List.map_app.
  split; [exact H1|]. split; [exact H2|].
  split; [eapply Forall_below_mono; [|exact H3]; lia|].
  split.
  - apply NoDup_snoc; [exact H4|now apply below_not_in].
  - apply Forall_app. split.
    + eapply Forall_below_mono; [|exact H5]; lia.
    + repeat constructor.
Qed.

Lemma tidy_send (p q : page) :
  tidy p ->
  typing_ids (chatMessages q) = typing_ids (chatMessages p) ++ [fresh p] ->
  waiting q = waiting p ++ [(S (fresh p), ChatReply (fresh p))] ->
  fresh q = S (S (fresh p)) -> tidy q.
Proof.
  unfold tidy. intros (H1 & H2 & H3 & H4 & H5) -> -> ->.
  rewrite awaited_indicators_app, List.map_app, H1.
  split; [reflexivity|]. rewrite <- H1.
  split; [apply NoDup_snoc; [exact H2|now apply below_not_in]|].
  split.
  - apply Forall_app. split.
    + eapply Forall_below_mono; [|exact H3]; lia.
    + repeat constructor.
  - split.
    + apply NoDup_snoc; [exact H4|].
      apply below_not_in. eapply Forall_below_mono; [|exact H5]. simpl. lia.
    + apply Forall_app. split.
      * eapply Forall_below_mono; [|exact H5]; lia.
      * repeat constructor.
Qed.

(** Taking a continuation that is not a chat reply off the list. *)
Lemma tidy_resume_other (p : page) (id : nat) (k : continuation)
    (rest : list (nat * continuation)) :
  tidy p -> take_continuation id (waiting p) = Some (k, rest) ->
  awaited_indicators [(id, k)] = [] ->
  tidy (set_waiting rest p).
Proof.
  unfold tidy. intros (H1 & H2 & H3 & H4 & H5) Ht Hk.
  destruct (take_continuation_split _ _ _ _ Ht) as (w1 & w2 & Hw & ->).
  simpl. rewrite Hw in *.
  change ((id, k) :: w2) with ([(id, k)] ++ w2) in H1.
  rewrite !awaited_indicators_app, Hk in H1. simpl in H1.
  rewrite awaited_indicators_app.
  rewrite List.map_app in *. simpl in H4, H5.
  split; [exact H1|]. split; [exact H2|]. split; [exact H3|].
  split; [eapply List.NoDup_remove_1; exact H4|].
  apply Forall_app in H5 as [Ha Hb]. apply Forall_app. split; [exact Ha|].
  now inversion Hb.
Qed.

(** Taking a chat reply off the list and its indicator out of the chat. *)
Lemma tidy_resume_chat (p q : page) (id ind : nat)
    (rest : list (nat * continuation)) :
  tidy p -> take_continuation id (waiting p) = Some (ChatReply ind, rest) ->
  typing_ids (chatMessages q)
  = List.filter (fun i => negb (Nat.eqb i ind)) (typing_ids (chatMessages p)) ->
  waiting q = rest -> fresh q = fresh p ->
  tidy q /\ In ind (typing_ids (chatMessages p)).
Proof.
  unfold tidy. intros (H1 & H2 & H3 & H4 & H5) Ht Hq -> Hf.
  destruct (take_continuation_split _ _ _ _ Ht) as (w1 & w2 & Hw & ->).
  rewrite Hw in *.
  change ((id, ChatReply ind) :: w2) with ([(id, ChatReply ind)] ++ w2) in H1.
  rewrite !awaited_indicators_app in H1. simpl in H1.
  rewrite Hq, Hf, H1 in *. clear Hq Hf.
  rewrite (filter_others_remove ind _ _ H2).
  rewrite awaited_indicators_app, List.map_app in *. simpl in H4, H5.
  split; [|apply List.in_or_app; right; now left].
  split; [reflexivity|].
  split; [eapply List.NoDup_remove_1; exact H2|].
  split.
  - apply Forall_app in H3 as [Ha Hb]. apply Forall_app. split; [exact Ha|].
    now inversion Hb.
  - split; [eapply List.NoDup_remove_1; exact H4|].
    apply Forall_app in H5 as [Ha Hb]. apply Forall_app. split; [exact Ha|].
    now inversion Hb.
Qed.

Lemma sendMessage_tidy (p : page) : tidy p -> tidy (sendMessage p).
Proof.
  intros H. destruct (sendMessage_chat p) as [-> | (m & Hc & Hw & Hf)];
    [exact H|].
  apply (tidy_send p); try assumption.
  rewrite Hc, typing_ids_app. reflexivity.
Qed.

Lemma on_fetch_tidy (p : page) (id : nat) (k : continuation) (o : outcome)
    (rest : list (nat * continuation)) :
  tidy p -> take_continuation id (waiting p) = Some (k, rest) ->
  match k with
  | FileRead _ | CloseModalTimer => True
  | _ => tidy (on_fetch k o (set_waiting rest p))
  end.
Proof.
  intros H Ht. destruct k as [ind|f| |f|]; try exact I.
  - destruct (chat_settle_effect ind o (set_waiting rest p))
      as (added & Hc & Ha & _ & Hw & Hf).
    eapply (tidy_resume_chat p); try eassumption.
    rewrite Hc, typing_ids_app, Ha, app_nil_r.
    apply typing_ids_without_typing.
  - pose proof (tidy_resume_other p id _ rest H Ht eq_refl) as H'.
    destruct (upload_settle_effect f o (set_waiting rest p))
      as (added & Hc & Ha & [[Hw Hf] | [Hw Hf]]).
    + apply (tidy_same (set_waiting rest p)); try assumption.
      now rewrite Hc, typing_ids_app, Ha, app_nil_r.
    + apply (tidy_await (set_waiting rest p) _ CloseModalTimer);
        try assumption; [|reflexivity].
      now rewrite Hc, typing_ids_app, Ha, app_nil_r.
  - pose proof (tidy_resume_other p id _ rest H Ht eq_refl) as H'.
    destruct (health_settle_effect o (set_waiting rest p))
      as (added & Hc & Ha & Hw & Hf).
    apply (tidy_same (set_waiting rest p)); try assumption.
    now rewrite Hc, typing_ids_app, Ha, app_nil_r.
Qed.

(** One turn of the event loop keeps the bookkeeping. *)
Lemma step_tidy (e : event) (p : page) : tidy p -> tidy (step e p).
Proof.
  intros H. destruct e; cbn [step].
  - apply (tidy_same p); auto.
  - unfold handleInputKeypress.
    destruct (String.eqb key "Enter" && negb shiftKey);
      [now apply sendMessage_tidy|exact H].
  - now apply sendMessage_tidy.
  - apply (tidy_same p); auto.
  - apply (tidy_same p); auto.
  - apply (tidy_same p); auto; unfold handleFileSelect; simpl;
      (destruct f; [destruct (negb _)|]; reflexivity).
  - destruct (confirmUploadBtn_disabled p); [exact H|].
    unfold uploadDocument. destruct (fileUpload_files p) as [f|].
    + apply (tidy_await p _ (FileRead f)); auto.
    + apply (tidy_same p); auto.
  - unfold resume.
    destruct (take_continuation id (waiting p)) as [[k rest]|] eqn:Ht;
      [|exact H].
    pose proof (on_fetch_tidy p id k o rest H Ht) as Hk.
    destruct k; try exact Hk; exact H.
  - unfold resume.
    destruct (take_continuation id (waiting p)) as [[k rest]|] eqn:Ht;
      [|exact H].
    destruct k as [ind|f| |f|]; try exact H.
    pose proof (tidy_resume_other p id _ rest H Ht eq_refl) as H'.
    destruct result as [data_url|].
    + apply (tidy_await (set_waiting rest p) _ (UploadReply f)); auto.
    + apply (tidy_same (set_waiting rest p)); auto.
  - unfold resume.
    destruct (take_continuation id (waiting p)) as [[k rest]|] eqn:Ht;
      [|exact H].
    destruct k as [ind|f| |f|]; try exact H.
    pose proof (tidy_resume_other p id _ rest H Ht eq_refl) as H'.
    apply (tidy_same (set_waiting rest p)); auto.
Qed.

Lemma run_tidy (events : list event) (p : page) : tidy p -> tidy (run events p).
Proof.
  revert p. induction events as [|e events IH]; intros p H; [exact H|].
  change (run (e :: events) p) with (run events (step e p)).
  now apply IH, step_tidy.
Qed.

Lemma loaded_tidy (random36 : string) (html : page) :
  typing_ids (chatMessages html) = [] ->
  tidy (DOMContentLoaded random36 html).
Proof.
  intros H. unfold tidy. simpl. rewrite H.
  repeat split; repeat constructor. intros [].
Qed.

(** X14. On a page whose markup has no typing indicator, at every moment
    of a run the typing indicators in the chat are exactly those of the
    chat requests still waiting for their reply, in the order the
    requests were sent, each once.  So the handler of a reply always
    finds its indicator in the chat, and when the request settles, in
    whatever way, that indicator is gone and the others stay. *)
Theorem typing_indicators_match_pending_requests
    (random36 : string) (html : page) (events : list event) :
  typing_ids (chatMessages html) = [] ->
  let p := run events (DOMContentLoaded random36 html) in
  typing_ids (chatMessages p) = awaited_indicators (waiting p)
  /\ List.NoDup (typing_ids (chatMessages p))
  /\ (forall id ind p' o,
        resume id p = Some (ChatReply ind, p') ->
        existsb (is_typing ind) (chatMessages p) = true
        /\ typing_ids (chatMessages (step (FetchSettled id o) p))
           = List.filter (fun i => negb (Nat.eqb i ind))
                         (typing_ids (chatMessages p))
        /\ typing_ids (chatMessages (step (FetchSettled id o) p))
           = awaited_indicators (waiting (step (FetchSettled id o) p))).
Proof.
  intros Hhtml p.
  assert (Ht : tidy p) by (apply run_tidy, loaded_tidy, Hhtml).
  split; [apply Ht|]. split; [apply Ht|].
  intros id ind p' o Hr.
  assert (Hafter : tidy (step (FetchSettled id o) p)) by now apply step_tidy.
  cbn [step] in *. rewrite Hr in *.
  unfold resume in Hr.
  destruct (take_continuation id (waiting p)) as [[k rest]|] eqn:Hk;
    [|discriminate].
  inversion Hr; subst k p'. clear Hr.
  destruct (chat_settle_effect ind o (set_waiting rest p))
    as (added & Hc & Ha & _ & Hw & Hf).
  assert (Hids : typing_ids (chatMessages
                               (on_fetch (ChatReply ind) o (set_waiting rest p)))
                 = List.filter (fun i => negb (Nat.eqb i ind))
                               (typing_ids (chatMessages p))).
  { rewrite Hc, typing_ids_app, Ha, app_nil_r.
    apply typing_ids_without_typing. }
  destruct (tidy_resume_chat p _ id ind rest Ht Hk Hids Hw Hf) as [_ Hin].
  split; [now apply typing_ids_existsb|].
  split; [exact Hids|apply Hafter].
Qed.

Lemma typing_indicators_match_pending_requests_witness :
  let p := run [InputText "one" "20"; ClickSend;
                InputText "two" "20"; ClickSend]
               (DOMContentLoaded "0.4fzyo82mvyr" blank) in
  typing_ids (chatMessages p) = awaited_indicators (waiting p)
  /\ typing_ids (chatMessages (step (FetchSettled 2 Rejected) p))
     = List.filter (fun i => negb (Nat.eqb i 1)) (typing_ids (chatMessages p)).
Proof.
  intros p.
  destruct (typing_indicators_match_pending_requests
              "0.4fzyo82mvyr" blank
              [InputText "one" "20"; ClickSend; InputText "two" "20"; ClickSend]
              eq_refl) as (H1 & _ & H2).
  split; [exact H1|].
  assert (E : resume 2 p
              = Some (ChatReply 1,
                      set_waiting [(0, HealthReply); (4, ChatReply 3)] p))
    by (vm_compute; reflexivity).
  destruct (H2 2 1 _ Rejected E) as (_ & H3 & _).
  exact H3.
Defined.

(** ** Sending once *)

(** X15. Sending empties the input, so sending again at once does
    nothing: two clicks on the send button in a row post the message
    once and show it once. *)
Theorem second_send_ignored (p : page) :
  sendMessage (sendMessage p) = sendMessage p
  /\ run [ClickSend; ClickSend] p = step ClickSend p
  /\ run [Keypress "Enter" false; Keypress "Enter" false] p
     = step ClickSend p.
Proof.
  assert (E : sendMessage (sendMessage p) = sendMessage p).
  { destruct (trim (chatInput_value p)) as [|c m] eqn:Hm.
    - now rewrite !(sendMessage_blank_noop_aux p Hm).
    - destruct (sendMessage_sends p (String c m) Hm ltac:(discriminate))
        as (_ & _ & _ & Hv).
      apply sendMessage_blank_noop_aux. now rewrite Hv. }
  split; [exact E|]. split.
  - change (run [ClickSend; ClickSend] p)
      with (sendMessage (sendMessage p)). exact E.
  - change (run [Keypress "Enter" false; Keypress "Enter" false] p)
      with (sendMessage (sendMessage p)). exact E.
Qed.

(** ** Every message shown has been sent *)

Lemma user_bubbles_settled (k : continuation) (o : outcome) (p : page) :
  List.filter is_user_bubble (chatMessages (on_fetch k o p))
  = List.filter is_user_bubble (chatMessages p).
Proof.
  assert (Hbot : forall l text,
            List.filter is_user_bubble
              (l ++ [Message "message bot" text])
            = List.filter is_user_bubble l).
  { intros l text. rewrite List.filter_app. simpl. apply app_nil_r. }
  assert (Hwo : forall ind l,
            List.filter is_user_bubble (without_typing ind l)
            = List.filter is_user_bubble l).
  { intros ind l. unfold without_typing.
    induction l as [|n l IH]; [reflexivity|]. simpl.
    destruct n as [cls ps|i]; simpl.
    - destruct (String.eqb cls "message user"); now rewrite IH.
    - destruct (Nat.eqb i ind); simpl; exact IH. }
  destruct k as [ind|f| |f|]; try reflexivity.
  - destruct (existsb (is_typing ind) (chatMessages p)) eqn:Ht.
    + destruct o as [|data]; unfold on_fetch.
      * unfold chat_catch, removeChild. rewrite Ht.
        cbn [bind addMessageToChat settled]. simpl chatMessages.
        now rewrite Hbot, Hwo.
      * unfold chat_then, removeChild. rewrite Ht. cbn [bind].
        unfold reading.
        assert (Hthrow :
                  List.filter is_user_bubble
                    (chatMessages
                       (catching
                          (Throw (set_chatMessages
                                    (without_typing ind (chatMessages p)) p))
                          (chat_catch ind)))
                  = List.filter is_user_bubble (chatMessages p)).
        { cbn [catching]. rewrite chat_catch_after_removal. simpl.
          apply Hwo. }
        destruct (get "success" data) as [success|]; [|exact Hthrow].
        destruct (truthy success).
        -- destruct (get "response" data) as [response|]; [|exact Hthrow].
           destruct response; try exact Hthrow.
           cbn [addMessageToChat catching]. simpl chatMessages.
           now rewrite Hbot, Hwo.
        -- destruct (get "error" data) as [error|]; [|exact Hthrow].
           cbn [addMessageToChat catching]. simpl chatMessages.
           now rewrite Hbot, Hwo.
    + assert (E : on_fetch (ChatReply ind) o p = p); [|now rewrite E].
      destruct o as [|data]; unfold on_fetch.
      * unfold chat_catch, removeChild. now rewrite Ht.
      * unfold chat_then, removeChild. rewrite Ht. cbn [bind catching].
        unfold chat_catch, removeChild. now rewrite Ht.
  - destruct o as [|data]; unfold on_fetch; [reflexivity|].
    unfold upload_then, reading.
    destruct (get "success" data) as [success|]; [|reflexivity].
    destruct (truthy success).
    + destruct (get "message" data) as [message|]; [|reflexivity].
      cbn [addMessageToChat bind catching]. simpl chatMessages.
      now rewrite Hbot.
    + destruct (get "error" data); reflexivity.
  - destruct o as [|data]; unfold on_fetch; [reflexivity|].
    unfold health_then, reading.
    destruct (get "status" data) as [status|]; [|reflexivity].
    destruct (strict_ne_string status "healthy"); [|reflexivity].
    cbn [addMessageToChat catching]. simpl chatMessages.
    now rewrite Hbot.
Qed.

Lemma step_echo (e : event) (p : page) :
  (user_bubbles (step e p) = user_bubbles p
   /\ chat_posts (step e p) = chat_posts p)
  \/ (user_bubbles (step e p) = S (user_bubbles p)
      /\ chat_posts (step e p) = S (chat_posts p)).
Proof.
  unfold user_bubbles, chat_posts.
  assert (Hsend :
            (length (List.filter is_user_bubble (chatMessages (sendMessage p)))
             = length (List.filter is_user_bubble (chatMessages p))
             /\ length (List.filter is_chat_post (fetched (sendMessage p)))
                = length (List.filter is_chat_post (fetched p)))
            \/ (length (List.filter is_user_bubble
                          (chatMessages (sendMessage p)))
                = S (length (List.filter is_user_bubble (chatMessages p)))
                /\ length (List.filter is_chat_post (fetched (sendMessage p)))
                   = S (length (List.filter is_chat_post (fetched p))))).
  { destruct (trim (chatInput_value p)) as [|c m] eqn:Hm.
    - left. now rewrite (sendMessage_blank_noop_aux p Hm).
    - right.
      destruct (sendMessage_sends p (String c m) Hm ltac:(discriminate))
        as (H1 & H2 & _).
      rewrite H1, H2, !List.filter_app, !length_app.
      change (List.filter is_user_bubble _)
        with (List.filter is_user_bubble (chatMessages p)) at 1.
      assert (Eurl : String.eqb CHAT_ENDPOINT CHAT_ENDPOINT = true)
        by apply String.eqb_refl.
      cbn [List.filter is_user_bubble is_chat_post].
      rewrite Eurl.
      change (String.eqb "message user" "message user") with true.
      simpl length. lia. }
  destruct e; cbn [step].
  - now left.
  - unfold handleInputKeypress.
    destruct (String.eqb key "Enter" && negb shiftKey); [exact Hsend|now left].
  - exact Hsend.
  - now left.
  - now left.
  - left. unfold handleFileSelect. simpl.
    destruct f; [destruct (negb _)|]; split; reflexivity.
  - left. destruct (confirmUploadBtn_disabled p); [now split|].
    unfold uploadDocument. destruct (fileUpload_files p); split; reflexivity.
  - left. destruct (resume id p) as [[k p']|] eqn:Hr; [|now split].
    apply resume_page in Hr as [w ->].
    assert (H : length (List.filter is_user_bubble
                          (chatMessages (on_fetch k o (set_waiting w p))))
                = length (List.filter is_user_bubble (chatMessages p))
                /\ length (List.filter is_chat_post
                             (fetched (on_fetch k o (set_waiting w p))))
                   = length (List.filter is_chat_post (fetched p))).
    { rewrite user_bubbles_settled.
      destruct (on_fetch_wire k o (set_waiting w p)) as [_ ->].
      split; reflexivity. }
    destruct k; try exact H; now split.
  - left. destruct (resume id p) as [[k p']|] eqn:Hr; [|now split].
    apply resume_page in Hr as [w ->].
    destruct k; try (now split).
    destruct result as [data_url|]; [|now split].
    split; [reflexivity|].
    unfold reader_onload. simpl fetched.
    rewrite List.filter_app, length_app.
    cbn [List.filter is_chat_post].
    assert (E : String.eqb UPLOAD_ENDPOINT CHAT_ENDPOINT = false)
      by (apply String.eqb_neq, endpoints_differ).
    rewrite E. simpl. lia.
  - left. destruct (resume id p) as [[k p']|] eqn:Hr; [|now split].
    apply resume_page in Hr as [w ->].
    destruct k; split; reflexivity.
Qed.

(** X16. What the user sees as sent has been sent, once: in any run the
    number of user bubbles added to the chat is the number of requests
    made to the chat endpoint.  No reply, upload or health check adds a
    user bubble or a chat request. *)
Theorem user_bubbles_match_chat_requests (events : list event) (p : page) :
  user_bubbles (run events p) - user_bubbles p
  = chat_posts (run events p) - chat_posts p
  /\ user_bubbles p <= user_bubbles (run events p)
  /\ chat_posts p <= chat_posts (run events p).
Proof.
  revert p. induction events as [|e events IH]; intros p.
  - simpl. lia.
  - change (run (e :: events) p) with (run events (step e p)).
    specialize (IH (step e p)).
    destruct (step_echo e p) as [[H1 H2] | [H1 H2]]; lia.
Qed.

End ReachFacts.

(** * The chat exchange *)
Module ChatFacts.
Import JsString Citation CitationFacts Client ClientFacts Reach ReachFacts.
Local Open Scope list_scope.

Lemma unknown_error_paragraphs :
  paragraphs_of (replace_markers "Error: Unknown error occurred")
  = ["Error: Unknown error occurred"].
Proof. vm_compute. reflexivity. Qed.

Lemma error_text_plain (e : string) :
  has_marker e = false -> free_of newline e = true ->
  paragraphs_of (replace_markers ("Error: " ++ e)) = [("Error: " ++ e)%string].
Proof.
  intros Hm Hn.
  rewrite replace_markers_none
    by (rewrite (has_marker_app_free "Error: " e eq_refl); exact Hm).
  apply paragraphs_of_single; [|reflexivity].
  rewrite free_of_app, Hn. reflexivity.
Qed.

(** C6. A message that is not blank goes out as one POST to the chat
    endpoint whose JSON body is the object with exactly the two
    properties [message] (the trimmed input) and [session_id] (the
    page's identifier); the message is shown as a user bubble holding
    its lines that are not blank.

    When the reply to it has a truthy [success], the typing indicator is
    taken away and the [response] text is appended as a bot message: its
    paragraphs are the non-blank lines of the response with the citation
    markers rewritten, so a response of one line without marker is shown
    as it is.  When [success] is not truthy, what is appended is the bot
    message "Error: " followed by the [error] field -- for an [error]
    string of one line without marker the bubble reads "Error: " and
    that string -- or "Error: Unknown error occurred" when the field is
    empty or missing. *)
Theorem chat_exchange (p : page) (m : string) :
  trim (chatInput_value p) = m -> m <> "" ->
  (fetched (sendMessage p)
   = fetched p ++ [POST CHAT_ENDPOINT "application/json"
                     (VObj [("message", VStr m);
                            ("session_id", VStr (sessionId p))])]
   /\ chatMessages (sendMessage p)
      = chatMessages p ++ [Message "message user" (paragraphs_of m);
                           Typing (fresh p)]
   /\ nonblank_lines m (paragraphs_of m)
   /\ waiting (sendMessage p)
      = waiting p ++ [(S (fresh p), ChatReply (fresh p))])
  /\ (forall (q q' : page) (id ind : nat) (data success : value),
        resume id q = Some (ChatReply ind, q') ->
        existsb (is_typing ind) (chatMessages q) = true ->
        get "success" data = Some success ->
        (truthy success = true ->
         forall response, get "response" data = Some (VStr response) ->
         chatMessages (step (FetchSettled id (Resolved data)) q)
         = without_typing ind (chatMessages q)
           ++ [Message "message bot"
                 (paragraphs_of (replace_markers response))]
         /\ nonblank_lines (replace_markers response)
                           (paragraphs_of (replace_markers response))
         /\ (has_marker response = false ->
             free_of newline response = true -> is_blank response = false ->
             chatMessages (step (FetchSettled id (Resolved data)) q)
             = without_typing ind (chatMessages q)
               ++ [Message "message bot" [response]]))
        /\ (truthy success = false ->
            forall error, get "error" data = Some error ->
            chatMessages (step (FetchSettled id (Resolved data)) q)
            = without_typing ind (chatMessages q)
              ++ [Message "message bot"
                    (paragraphs_of
                       (replace_markers
                          ("Error: "
                           ++ to_string
                                (or_else error
                                   (VStr "Unknown error occurred")))%string))]
            /\ (truthy error = false ->
                chatMessages (step (FetchSettled id (Resolved data)) q)
                = without_typing ind (chatMessages q)
                  ++ [Message "message bot"
                        ["Error: Unknown error occurred"]])
            /\ (forall e, error = VStr e -> e <> "" ->
                nonblank_lines
                  (replace_markers ("Error: " ++ e))
                  (paragraphs_of (replace_markers ("Error: " ++ e)))
                /\ chatMessages (step (FetchSettled id (Resolved data)) q)
                   = without_typing ind (chatMessages q)
                     ++ [Message "message bot"
                           (paragraphs_of
                              (replace_markers ("Error: " ++ e)))]
                /\ (has_marker e = false -> free_of newline e = true ->
                    chatMessages (step (FetchSettled id (Resolved data)) q)
                    = without_typing ind (chatMessages q)
                      ++ [Message "message bot"
                            [("Error: " ++ e)%string]])))).
Proof.
  intros Hm Hne. split.
  - destruct (sendMessage_sends p m Hm Hne) as (H1 & H2 & H3 & _).
    repeat split; try assumption. apply paragraphs_of_nonblank_lines.
  - intros q q' id ind data success Hr Ht Hs. split.
    + intros Htr response Hresp.
      pose proof (chat_reply_success q q' id ind data success response
                    Hr Ht Hs Htr Hresp) as H.
      split; [exact H|]. split; [apply paragraphs_of_nonblank_lines|].
      intros Hmk Hnl Hb. rewrite H.
      rewrite (replace_markers_none response Hmk).
      now rewrite (paragraphs_of_single response Hnl Hb).
    + intros Htr error He.
      pose proof (chat_reply_failure q q' id ind data success error
                    Hr Ht Hs Htr He) as H.
      split; [exact H|]. split.
      * intros Hfalse. rewrite H. unfold or_else. rewrite Hfalse.
        change (to_string (VStr "Unknown error occurred"))
          with "Unknown error occurred".
        change ("Error: " ++ "Unknown error occurred")%string
          with "Error: Unknown error occurred".
        now rewrite unknown_error_paragraphs.
      * intros e -> Hnee.
        rewrite (or_else_text e "Unknown error occurred" Hnee) in H.
        split; [apply paragraphs_of_nonblank_lines|].
        split; [exact H|].
        intros Hmk Hnl. rewrite H. now rewrite (error_text_plain e Hmk Hnl).
Qed.

Lemma chat_exchange_witness :
  let p := step (InputText "  hi there " "20")
                (DOMContentLoaded "0.4fzyo82mvyr" blank) in
  let sent := sendMessage p in
  let reply := VObj [("success", VBool true);
                     ("response", VStr "Refunds take 5 business days.")] in
  let refusal := VObj [("success", VBool false);
                       ("error", VStr "Model endpoint not reachable")] in
  fetched sent
  = fetched p ++ [POST CHAT_ENDPOINT "application/json"
                    (VObj [("message", VStr "hi there");
                           ("session_id", VStr "session_4fzyo82mvyr")])]
  /\ chatMessages (step (FetchSettled 2 (Resolved reply)) sent)
     = without_typing 1 (chatMessages sent)
       ++ [Message "message bot" ["Refunds take 5 business days."]]
  /\ chatMessages (step (FetchSettled 2 (Resolved refusal)) sent)
     = without_typing 1 (chatMessages sent)
       ++ [Message "message bot" ["Error: Model endpoint not reachable"]].
Proof.
  intros p sent reply refusal.
  destruct (chat_exchange p "hi there" eq_refl ltac:(discriminate))
    as [[H1 _] H2].
  split; [exact H1|].
  assert (E : resume 2 sent
              = Some (ChatReply 1, set_waiting [(0, HealthReply)] sent))
    by (vm_compute; reflexivity).
  split.
  - destruct (H2 sent _ 2 1 reply (VBool true) E eq_refl eq_refl) as [H3 _].
    destruct (H3 eq_refl "Refunds take 5 business days." eq_refl)
      as (_ & _ & H4).
    exact (H4 eq_refl eq_refl eq_refl).
  - destruct (H2 sent _ 2 1 refusal (VBool false) E eq_refl eq_refl)
      as [_ H3].
    destruct (H3 eq_refl (VStr "Model endpoint not reachable") eq_refl)
      as (_ & _ & H4).
    destruct (H4 "Model endpoint not reachable" eq_refl ltac:(discriminate))
      as (_ & _ & H5).
    exact (H5 eq_refl eq_refl).
Defined.

End ChatFacts.
